(** * Selection and navigation core of the JSON tree editor

    A shallow embedding of [src/logic/selection.js]: range expansion,
    the selection constructor, the four navigation functions, the
    reconciliation of a selection with a list of patch operations and the
    serialization of a selection to partial JSON. *)

From Stdlib Require Import ZArith Ascii String List Lia.
From Stdlib Require Import Numbers.DecimalString.
From stdpp Require Import base option list strings gmap.

Local Open Scope Z_scope.

(** ** Paths *)

(** A key of a path: an object property name or an array index.  Numbers
    are the integers here; JavaScript's other numbers do not occur as
    indices. *)
Inductive Key :=
  | KStr (s : string)
  | KNum (n : Z).

Definition Path := list Key.

Global Instance Key_eq_dec : EqDecision Key.
Proof. solve_decision. Defined.

(** [a === b] on keys: no conversion between a number and a string. *)
Definition strictEq (a b : Key) : bool := bool_decide (a = b).

(** lodash [isEqual] on two paths. *)
Definition isEqual (p q : Path) : bool := bool_decide (p = q).

(** [String(n)] for an integer. *)
Definition numberToString (n : Z) : string :=
  NilZero.string_of_int (Z.to_int n).

(** The property name a key addresses: [o[1]] and [o["1"]] are the same
    property. *)
Definition propertyName (k : Key) : string :=
  match k with
  | KStr s => s
  | KNum n => numberToString n
  end.

(** lodash [first], [initial] and [isEmpty] on arrays; lodash [last] is
    the [last] of lists, with [None] for [undefined]. *)
Definition first {A} (l : list A) : option A := head l.
Definition initial {A} (l : list A) : list A := removelast l.
Definition isEmpty {A} (l : list A) : bool :=
  match l with [] => true | _ => false end.

(** ** JSON documents *)

(** A JSON value.  A number is an integer that JavaScript prints in
    decimal digits.  An object keeps its properties in insertion order,
    which is the order [JSON.stringify] prints them in (names that are
    array indices, which JavaScript puts first, aside). *)
#[local] Unset Elimination Schemes.
Inductive JSON :=
  | JNull
  | JBool (b : bool)
  | JNum (n : Z)
  | JStr (s : string)
  | JArr (items : list JSON)
  | JObj (props : list (string * JSON)).
#[local] Set Elimination Schemes.

(** Modelled from the spec: [isObject] and [isObjectOrArray] of
    [utils/typeUtils.js], which is not among the sources, and
    [Array.isArray], on the result of a lookup, where [None] is
    [undefined]. *)
Definition isObject (v : option JSON) : bool :=
  match v with Some (JObj _) => true | _ => false end.
Definition isArray (v : option JSON) : bool :=
  match v with Some (JArr _) => true | _ => false end.
Definition isObjectOrArray (v : option JSON) : bool :=
  isObject v || isArray v.

Fixpoint assoc {A} (name : string) (l : list (string * A)) : option A :=
  match l with
  | [] => None
  | (k, v) :: rest => if String.eqb k name then Some v else assoc name rest
  end.

Definition isDigit (c : ascii) : bool :=
  let n := nat_of_ascii c in (48 <=? n)%nat && (n <=? 57)%nat.

Fixpoint allDigits (s : string) : bool :=
  match s with
  | EmptyString => true
  | String c rest => isDigit c && allDigits rest
  end.

(** The number written by a string of decimal digits. *)
Fixpoint digitsValue (acc : Z) (s : string) : Z :=
  match s with
  | EmptyString => acc
  | String c rest => digitsValue (10 * acc + (Z.of_nat (nat_of_ascii c) - 48)) rest
  end.

(** [/^\d+$/] and [parseInt]. *)
Definition parseDigits (s : string) : option Z :=
  match s with
  | EmptyString => None
  | _ => if allDigits s then Some (digitsValue 0 s) else None
  end.

(** The element of an array a property name addresses: an index written
    canonically, or [length]. *)
Definition arrayProperty (items : list JSON) (name : string) : option JSON :=
  match parseDigits name with
  | Some n =>
      if String.eqb (numberToString n) name then items !! Z.to_nat n else None
  | None =>
      if String.eqb name "length" then Some (JNum (Z.of_nat (length items)))
      else None
  end.

(** [value[key]] for a value that is an object or an array; inherited
    properties are not part of the model. *)
Definition getProperty (value : JSON) (key : Key) : option JSON :=
  match value with
  | JObj props => assoc (propertyName key) props
  | JArr items => arrayProperty items (propertyName key)
  | _ => None
  end.

(** [getIn(json, path)] of immutable-json-patch. *)
Fixpoint getInFrom (value : option JSON) (path : Path) : option JSON :=
  match path with
  | [] => value
  | key :: rest =>
      getInFrom (match value with
                 | Some v => getProperty v key
                 | None => None
                 end) rest
  end.

Definition getIn (json : JSON) (path : Path) : option JSON :=
  getInFrom (Some json) path.

(** ** Completions *)

Inductive ErrorClass := ErrorC | TypeErrorC | RangeErrorC.

Record JsError := mkError { errorClass : ErrorClass; message : string }.

(** The outcome of a call: a value, a thrown error, or an object that is
    no value of the result type ([Untyped]: a selection whose paths are
    [undefined]). *)
Inductive Completion (A : Type) :=
  | Return (a : A)
  | Throw (e : JsError)
  | Untyped.
Arguments Return {A} a.
Arguments Throw {A} e.
Arguments Untyped {A}.

Definition bind {A B} (c : Completion A) (k : A -> Completion B) : Completion B :=
  match c with
  | Return a => k a
  | Throw e => Throw e
  | Untyped => Untyped
  end.

Notation "'let!' x ':=' c 'in' k" := (bind c (fun x => k))
  (at level 10, x name, c at level 100, k at level 200).

(** The completion of [c] with [f] applied to its value. *)
Definition mapCompletion {A B} (f : A -> B) (c : Completion A) : Completion B :=
  let! a := c in Return (f a).

Notation "f <$$> c" := (mapCompletion f c) (at level 61, left associativity).

(** ** The view state *)

(** Modelled from the spec: the view-state tree, whose marker fields
    [STATE_EXPANDED] and [STATE_KEYS] come from [constants.js], which is
    not among the sources.  The tree mirrors the document; a node carries
    the expanded flag, the ordered keys of an object node, and the states
    of the children by property name. *)
#[local] Unset Elimination Schemes.
Inductive State :=
  | mkState (expanded : option bool) (keys : option (list string))
            (children : list (string * State)).
#[local] Set Elimination Schemes.

Definition stateExpanded (s : State) : option bool :=
  match s with mkState e _ _ => e end.
Definition stateKeys (s : State) : option (list string) :=
  match s with mkState _ k _ => k end.
Definition stateChildren (s : State) : list (string * State) :=
  match s with mkState _ _ c => c end.

Fixpoint getInState (state : option State) (path : Path) : option State :=
  match path with
  | [] => state
  | key :: rest =>
      getInState (match state with
                  | Some s => assoc (propertyName key) (stateChildren s)
                  | None => None
                  end) rest
  end.

(** [getIn(state, path.concat(STATE_KEYS))]. *)
Definition getStateKeys (state : State) (path : Path) : option (list string) :=
  match getInState (Some state) path with
  | Some node => stateKeys node
  | None => None
  end.

Fixpoint assocSet {A} (name : string) (v : A) (l : list (string * A))
  : list (string * A) :=
  match l with
  | [] => [(name, v)]
  | (k, w) :: rest =>
      if String.eqb k name then (k, v) :: rest else (k, w) :: assocSet name v rest
  end.

(** [setIn(state, path.concat(STATE_EXPANDED), value, true)] of
    immutable-json-patch: a copy of the state with the flag set, the nodes
    on the way created where they are missing. *)
Fixpoint setStateExpanded (state : option State) (path : Path) (value : bool)
  : State :=
  match path with
  | [] =>
      match state with
      | Some (mkState _ ks ch) => mkState (Some value) ks ch
      | None => mkState (Some value) None []
      end
  | key :: rest =>
      let name := propertyName key in
      match state with
      | Some (mkState e ks ch) =>
          mkState e ks (assocSet name (setStateExpanded (assoc name ch) rest value) ch)
      | None =>
          mkState None None [(name, setStateExpanded None rest value)]
      end
  end.

(** ** JSON pointers *)

(** [String(p).replace(/~/g, '~0').replace(/\//g, '~1')]: the first
    replacement introduces no [/], so the two act on every character
    alone. *)
Fixpoint escapePointerProp (s : string) : string :=
  match s with
  | EmptyString => EmptyString
  | String c rest =>
      if Ascii.eqb c "~" then String "~" (String "0" (escapePointerProp rest))
      else if Ascii.eqb c "/" then String "~" (String "1" (escapePointerProp rest))
      else String c (escapePointerProp rest)
  end.

(** [compileJSONPointer(path)] of immutable-json-patch. *)
Fixpoint compileJSONPointer (path : Path) : string :=
  match path with
  | [] => EmptyString
  | key :: rest =>
      String "/" (escapePointerProp (propertyName key)) +:+ compileJSONPointer rest
  end.

(** ** Range expansion *)

Fixpoint findSharedPath (path1 path2 : Path) : Path :=
  match path1, path2 with
  | k1 :: rest1, k2 :: rest2 =>
      if strictEq k1 k2 then k1 :: findSharedPath rest1 rest2 else []
  | _, _ => []
  end.

(** [keys.indexOf(key)], where [key] may be [undefined]: an element is
    found by [===], so only a string key is ever found. *)
Fixpoint indexOfFrom (i : Z) (keys : list string) (key : option Key) : Z :=
  match keys with
  | [] => -1
  | k :: rest =>
      if bool_decide (key = Some (KStr k)) then i else indexOfFrom (i + 1) rest key
  end.

Definition indexOf (keys : list string) (key : option Key) : Z :=
  indexOfFrom 0 keys key.

(** The number [Math.min] and [Math.max] read a key as; [None] is [NaN].
    A string of digits is its number and the empty string is 0; the other
    numeric spellings of JavaScript (sign, fraction, exponent, radix
    prefix, blanks) are not keys of this model. *)
Definition toNumber (key : option Key) : option Z :=
  match key with
  | Some (KNum n) => Some n
  | Some (KStr s) =>
      match s with
      | EmptyString => Some 0
      | _ => parseDigits s
      end
  | None => None
  end.

Definition mathMin (a b : option Z) : option Z :=
  match a, b with
  | Some x, Some y => Some (Z.min x y)
  | _, _ => None
  end.

Definition mathMax (a b : option Z) : option Z :=
  match a, b with
  | Some x, Some y => Some (Z.max x y)
  | _, _ => None
  end.

(** [for (let i = startIndex; i <= endIndex; i++) paths.push(sharedPath.concat(keys[i]))],
    for indices that [indexOf] found. *)
Definition objectRange (sharedPath : Path) (keys : list string)
    (startIndex endIndex : Z) : list Path :=
  map (fun k => sharedPath ++ [KStr k])
      (take (Z.to_nat (endIndex - startIndex + 1)) (drop (Z.to_nat startIndex) keys)).

(** [for (let i = startIndex; i <= endIndex; i++) paths.push(sharedPath.concat(i))];
    no iteration when a bound is [NaN]. *)
Definition arrayRange (sharedPath : Path) (startIndex endIndex : option Z)
  : list Path :=
  match startIndex, endIndex with
  | Some s, Some e => map (fun i => sharedPath ++ [KNum i]) (seqZ s (e - s + 1))
  | _, _ => []
  end.

Definition failedToCreateSelection : JsError :=
  mkError ErrorC "Failed to create selection".

(** What reading [keys.indexOf] throws when the state stores no keys. *)
Definition keysUndefined : JsError :=
  mkError TypeErrorC "Cannot read properties of undefined (reading 'indexOf')".

Definition expandSelection (json : JSON) (state : State)
    (anchorPath focusPath : Path) : Completion (list Path) :=
  if isEqual anchorPath focusPath then Return [anchorPath]
  else
    let sharedPath := findSharedPath anchorPath focusPath in
    if bool_decide (length anchorPath = length sharedPath)
       || bool_decide (length focusPath = length sharedPath)
    then Return [sharedPath]
    else
      let anchorKey := anchorPath !! length sharedPath in
      let focusKey := focusPath !! length sharedPath in
      let value := getIn json sharedPath in
      let! found :=
        (if isObject value then
           match getStateKeys state sharedPath with
           | None => Throw keysUndefined
           | Some keys =>
               let anchorIndex := indexOf keys anchorKey in
               let focusIndex := indexOf keys focusKey in
               if negb (anchorIndex =? -1) && negb (focusIndex =? -1) then
                 let startIndex := Z.min anchorIndex focusIndex in
                 let endIndex := Z.max anchorIndex focusIndex in
                 Return (Some (objectRange sharedPath keys startIndex endIndex))
               else Return None
           end
         else Return None) in
      match found with
      | Some paths => Return paths
      | None =>
          if isArray value then
            let startIndex := mathMin (toNumber anchorKey) (toNumber focusKey) in
            let endIndex := mathMax (toNumber anchorKey) (toNumber focusKey) in
            Return (arrayRange sharedPath startIndex endIndex)
          else Throw failedToCreateSelection
      end.

(** ** Selections *)

Inductive SelectionType := AFTER | INSIDE | KEY | VALUE | MULTI.

Global Instance SelectionType_eq_dec : EqDecision SelectionType.
Proof. solve_decision. Defined.

(** A selection object.  A field the object does not have is [None]:
    [edit] is set by the constructor for a key or a value only, [paths]
    and [pathsMap] belong to a multi selection. *)
Record Selection := mkSelection {
  type : SelectionType;
  anchorPath : Path;
  focusPath : Path;
  edit : option bool;
  paths : option (list Path);
  pathsMap : option (gmap string bool)
}.

(** [pathsMap[compileJSONPointer(path)] = true] for every path. *)
Definition createPathsMap (paths : list Path) : gmap string bool :=
  foldl (fun pathsMap path => <[compileJSONPointer path := true]> pathsMap) ∅ paths.

Definition getParentPath (selection : Selection) : Path :=
  match type selection with
  | INSIDE => focusPath selection
  | _ => initial (focusPath selection)
  end.

Definition selectAll : Selection :=
  mkSelection VALUE [] [] None None None.

(** The argument of the constructor; a field that is not given is [None],
    and the three flags default to [false]. *)
Record SelectionSchema := mkSchema {
  schemaType : option SelectionType;
  schemaAnchorPath : option Path;
  schemaFocusPath : option Path;
  schemaPath : option Path;
  schemaEdit : bool;
  schemaNext : bool;
  schemaNextInside : bool
}.

(** [{ type, path }] and [{ type, anchorPath, focusPath }]. *)
Definition atPath (t : SelectionType) (path : Path) : SelectionSchema :=
  mkSchema (Some t) None None (Some path) false false false.
Definition between (t : SelectionType) (anchor focus : Path) : SelectionSchema :=
  mkSchema (Some t) (Some anchor) (Some focus) None false false false.

(** The message goes on with the schema, serialized. *)
Definition unknownTypeOfSelection : JsError :=
  mkError TypeErrorC "Unknown type of selection".

(** A selection on one path; [Untyped] when the path is [undefined]. *)
Definition single (t : SelectionType) (path : option Path) (edit : option bool)
  : Completion Selection :=
  match path with
  | Some p => Return (mkSelection t p p edit None None)
  | None => Untyped
  end.

(** The multi selection over an expanded range. *)
Definition multiOver (anchorPath focusPath : Path) (paths : list Path)
  : Completion Selection :=
  let focusPathLast :=
    bool_decide (Some focusPath = last paths)
    || bool_decide (Some anchorPath = first paths) in
  match (if focusPathLast then first paths else last paths),
        (if focusPathLast then last paths else first paths) with
  | Some anchor, Some focus =>
      Return (mkSelection MULTI anchor focus None (Some paths)
                          (Some (createPathsMap paths)))
  | _, _ => Untyped
  end.

(** [createSelection] up to the two steps [next] and [nextInside] ask for
    after a value selection is built: all of [createSelection] for a
    schema that sets neither flag, which is how the functions of this file
    call it. *)
Definition createSelectionPlain (json : JSON) (state : State)
    (schema : SelectionSchema) : Completion Selection :=
  match schemaType schema with
  | Some KEY =>
      single (if schemaNext schema then VALUE else KEY)
             (schemaPath schema) (Some (schemaEdit schema))
  | Some VALUE => single VALUE (schemaPath schema) (Some (schemaEdit schema))
  | Some AFTER => single AFTER (schemaPath schema) None
  | Some INSIDE => single INSIDE (schemaPath schema) None
  | _ =>
      match schemaAnchorPath schema, schemaFocusPath schema with
      | Some anchorPath, Some focusPath =>
          let! paths := expandSelection json state anchorPath focusPath in
          multiOver anchorPath focusPath paths
      | _, _ => Throw unknownTypeOfSelection
      end
  end.

(** ** Navigation *)

(** Modelled from the spec: [CARET_POSITION] of [documentState.js], the
    kinds of caret stop: key, value, after and inside. *)
Inductive CaretType := CaretInside | CaretAfter | CaretKey | CaretValue.

Record CaretPosition := mkCaret { caretPath : Path; caretType : CaretType }.

(** A caret type is the selection type of the same name. *)
Definition caretSelectionType (t : CaretType) : SelectionType :=
  match t with
  | CaretInside => INSIDE
  | CaretAfter => AFTER
  | CaretKey => KEY
  | CaretValue => VALUE
  end.

Fixpoint findIndexFrom {A} (i : nat) (f : A -> bool) (l : list A) : option nat :=
  match l with
  | [] => None
  | x :: rest => if f x then Some i else findIndexFrom (S i) f rest
  end.

(** [array.findIndex(f)]; [None] is -1. *)
Definition findIndex {A} (f : A -> bool) (l : list A) : option nat :=
  findIndexFrom 0 f l.

Section Navigation.

(** The visibility provider of [documentState.js], which the functions
    below consume.  A document or a state that is [undefined] is
    [None]. *)
Variable getNextVisiblePath : option JSON -> option State -> Path -> option Path.
Variable getPreviousVisiblePath : option JSON -> option State -> Path -> option Path.
Variable getVisibleCaretPositions : JSON -> State -> list CaretPosition.

Definition getSelectionUp (json : JSON) (state : State)
    (selection : Selection) (keepAnchorPath : bool)
  : Completion (option Selection) :=
  match getPreviousVisiblePath (Some json) (Some state) (focusPath selection) with
  | None => Return None
  | Some previousPath =>
      let anchorPath' := previousPath in
      let focusPath' := previousPath in
      if keepAnchorPath then
        if bool_decide (type selection = AFTER)
           || bool_decide (type selection = INSIDE)
        then
          Some <$$> createSelectionPlain json state
            (between MULTI (anchorPath selection) (anchorPath selection))
        else
          Some <$$> createSelectionPlain json state
            (between MULTI (anchorPath selection) focusPath')
      else
        match type selection with
        | KEY =>
            let parentPath := initial previousPath in
            let parent := getIn json parentPath in
            if isArray parent || isEmpty previousPath then
              Return (Some (mkSelection VALUE anchorPath' focusPath' None None None))
            else
              Return (Some (mkSelection KEY anchorPath' focusPath' None None None))
        | VALUE =>
            Return (Some (mkSelection VALUE anchorPath' focusPath' None None None))
        | AFTER =>
            Some <$$> createSelectionPlain json state
              (between MULTI (focusPath selection) (focusPath selection))
        | INSIDE =>
            Some <$$> createSelectionPlain json state
              (between MULTI (focusPath selection) (focusPath selection))
        | MULTI =>
            Some <$$> createSelectionPlain json state
              (between MULTI anchorPath' focusPath')
        end
  end.

(** The state Down hands to the provider when it extends: where the
    focus is an object or an array, the state with that node collapsed,
    so that the next visible path is behind the node and not inside
    it. *)
Definition collapsedState (json : JSON) (state : State) (focusPath : Path)
  : State :=
  if isObjectOrArray (getIn json focusPath)
  then setStateExpanded (Some state) focusPath false
  else state.

Definition getSelectionDown (json : JSON) (state : State)
    (selection : Selection) (keepAnchorPath : bool)
  : Completion (option Selection) :=
  match getNextVisiblePath (Some json) (Some state) (focusPath selection) with
  | None => Return None
  | Some nextPath =>
      let anchorPath' := nextPath in
      let focusPath' := nextPath in
      if keepAnchorPath then
        match getNextVisiblePath (Some json)
                (Some (collapsedState json state (focusPath selection)))
                (focusPath selection) with
        | None => Return None
        | Some nextPathAfter =>
            match type selection with
            | AFTER =>
                Some <$$> createSelectionPlain json state
                  (between MULTI nextPathAfter nextPathAfter)
            | INSIDE =>
                Some <$$> createSelectionPlain json state
                  (between MULTI anchorPath' focusPath')
            | _ =>
                Some <$$> createSelectionPlain json state
                  (between MULTI (anchorPath selection) nextPathAfter)
            end
        end
      else
        match type selection with
        | KEY =>
            let parentPath := initial nextPath in
            let parent := getIn json parentPath in
            if isArray parent then
              Return (Some (mkSelection VALUE anchorPath' focusPath' None None None))
            else
              Return (Some (mkSelection KEY anchorPath' focusPath' None None None))
        | VALUE =>
            Return (Some (mkSelection VALUE anchorPath' focusPath' None None None))
        | INSIDE =>
            Some <$$> createSelectionPlain json state
              (between MULTI anchorPath' focusPath')
        | _ =>
            Some <$$> createSelectionPlain json state
              (between MULTI nextPath nextPath)
        end
  end.

(** The key [undefined] in a path handed to the provider, which finds a
    path by its JSON pointer: there it reads as the name [undefined]. *)
Definition undefinedKey : Key := KStr "undefined".

(** For the root, whose path has no last key, the child path is
    [[undefined]]. *)
Definition getSelectionNextInside (json : JSON) (state : State)
    (selection : Selection) : Completion Selection :=
  let path := focusPath selection in
  let parentPath := initial path in
  let childPath := [default undefinedKey (last path)] in
  match getNextVisiblePath (getIn json parentPath)
          (getInState (Some state) parentPath) childPath with
  | Some nextPathInside =>
      createSelectionPlain json state (atPath VALUE (parentPath ++ nextPathInside))
  | None => createSelectionPlain json state (atPath AFTER path)
  end.

(** [createSelection]: [createSelectionPlain], and for a value the
    steps the flags [next] and [nextInside] ask for. *)
Definition createSelection (json : JSON) (state : State)
    (schema : SelectionSchema) : Completion Selection :=
  match schemaType schema with
  | Some VALUE =>
      let! selection := createSelectionPlain json state schema in
      let! selection :=
        (if schemaNext schema then
           let! down := getSelectionDown json state selection false in
           Return (default selection down)
         else Return selection) in
      if schemaNextInside schema
      then getSelectionNextInside json state selection
      else Return selection
  | _ => createSelectionPlain json state schema
  end.

Record CaretAndSiblings := mkSiblings {
  caret : option CaretPosition;
  previous : option CaretPosition;
  next : option CaretPosition
}.

Definition findCaretAndSiblings (json : JSON) (state : State)
    (selection : Selection) : CaretAndSiblings :=
  let visibleCaretPositions := getVisibleCaretPositions json state in
  let index :=
    findIndex (fun caret =>
                 isEqual (caretPath caret) (focusPath selection)
                 && bool_decide (caretSelectionType (caretType caret) = type selection))
              visibleCaretPositions in
  match index with
  | None => mkSiblings None None None
  | Some i =>
      mkSiblings
        (visibleCaretPositions !! i)
        (if bool_decide (0 < i)%nat then visibleCaretPositions !! (i - 1)%nat
         else None)
        (if bool_decide (i < length visibleCaretPositions - 1)%nat
         then visibleCaretPositions !! (i + 1)%nat else None)
  end.

Definition getSelectionLeft (json : JSON) (state : State)
    (selection : Selection) (keepAnchorPath : bool)
  : Completion (option Selection) :=
  let siblings := findCaretAndSiblings json state selection in
  if keepAnchorPath then
    if negb (bool_decide (type selection = MULTI)) then
      Some <$$> createSelectionPlain json state
        (between MULTI (anchorPath selection) (focusPath selection))
    else Return None
  else
    match caret siblings, previous siblings with
    | Some _, Some previous =>
        Some <$$> createSelectionPlain json state
          (atPath (caretSelectionType (caretType previous)) (caretPath previous))
    | _, _ =>
        let parentPath := initial (focusPath selection) in
        let parent := getIn json parentPath in
        if bool_decide (type selection = VALUE) && isArray parent then
          Some <$$> createSelectionPlain json state
            (between MULTI (focusPath selection) (focusPath selection))
        else if bool_decide (type selection = MULTI) && negb (isArray parent) then
          Some <$$> createSelectionPlain json state
            (atPath KEY (focusPath selection))
        else Return None
    end.

Definition getSelectionRight (json : JSON) (state : State)
    (selection : Selection) (keepAnchorPath : bool)
  : Completion (option Selection) :=
  let siblings := findCaretAndSiblings json state selection in
  if keepAnchorPath then
    if negb (bool_decide (type selection = MULTI)) then
      Some <$$> createSelectionPlain json state
        (between MULTI (anchorPath selection) (focusPath selection))
    else Return None
  else
    match caret siblings, next siblings with
    | Some _, Some next =>
        Some <$$> createSelectionPlain json state
          (atPath (caretSelectionType (caretType next)) (caretPath next))
    | _, _ =>
        if bool_decide (type selection = MULTI) then
          Some <$$> createSelectionPlain json state
            (atPath VALUE (focusPath selection))
        else Return None
    end.

End Navigation.

(** ** Selection after a list of patch operations *)

(** A JSON patch operation; [from] is there for a move or a copy. *)
Record Operation := mkOperation {
  op : string;
  path : string;
  from : option string;
  value : option JSON
}.

(** [pointer.split('/')]. *)
Fixpoint splitSlash (s : string) : list string :=
  match s with
  | EmptyString => [EmptyString]
  | String c rest =>
      if Ascii.eqb c "/" then EmptyString :: splitSlash rest
      else match splitSlash rest with
           | part :: parts => String c part :: parts
           | [] => [String c EmptyString]
           end
  end.

(** [s.replace(/~x/g, r)] for a character [x]. *)
Fixpoint replaceTilde (x r : ascii) (s : string) : string :=
  match s with
  | EmptyString => EmptyString
  | String c tail =>
      match tail with
      | String d rest =>
          if Ascii.eqb c "~" && Ascii.eqb d x then String r (replaceTilde x r rest)
          else String c (replaceTilde x r tail)
      | EmptyString => s
      end
  end.

(** [parseJSONPointer(pointer)] of immutable-json-patch. *)
Definition parseJSONPointer (pointer : string) : list string :=
  map (fun p => replaceTilde "0" "~" (replaceTilde "1" "/" p))
      (tail (splitSlash pointer)).

Fixpoint withArrayIndices (json : JSON) (parsed : Path) (sections : list string)
  : Path :=
  match sections with
  | [] => parsed
  | section :: rest =>
      let key :=
        match parseDigits section with
        | Some n => if isArray (getIn json parsed) then KNum n else KStr section
        | None => KStr section
        end in
      withArrayIndices json (parsed ++ [key]) rest
  end.

(** Modelled from the spec: [parseJSONPointerWithArrayIndices] of
    [utils/jsonPointer.js], which is not among the sources: it parses a
    pointer string into a path with the array indices typed as numbers,
    that is, a section of digits under an array of the document is a
    number. *)
Definition parseJSONPointerWithArrayIndices (json : JSON) (pointer : string)
  : Path :=
  withArrayIndices json [] (parseJSONPointer pointer).

(** The filter of the third rule; [typeof operation.path === 'string']
    holds of every [Operation]. *)
Definition selectable (operation : Operation) : bool :=
  negb (String.eqb (op operation) "test")
  && negb (String.eqb (op operation) "remove")
  && (negb (String.eqb (op operation) "move")
      || negb (bool_decide (from operation = Some (path operation)))).

(** The first rule: a single replace or move is a replaced value. *)
Definition replacedValue (json : JSON) (operations : list Operation)
  : option Selection :=
  match operations with
  | [operation] =>
      if String.eqb (op operation) "replace" || String.eqb (op operation) "move"
      then
        let path := parseJSONPointerWithArrayIndices json (path operation) in
        Some (mkSelection VALUE path path (Some false) None None)
      else None
  | _ => None
  end.

(** The second rule: moves, the first to another path and the others
    onto their own, are a renamed key. *)
Definition renamedKey (json : JSON) (operations : list Operation)
  : option Selection :=
  match operations with
  | firstOp :: otherOps =>
      if forallb (fun operation => String.eqb (op operation) "move") operations
         && negb (bool_decide (from firstOp = Some (path firstOp)))
         && forallb (fun operation =>
                       bool_decide (from operation = Some (path operation)))
                    otherOps
      then
        let path := parseJSONPointerWithArrayIndices json (path firstOp) in
        Some (mkSelection KEY path path (Some false) None None)
      else None
  | [] => None
  end.

Definition createSelectionFromOperations (json : JSON)
    (operations : list Operation) : option Selection :=
  match replacedValue json operations, renamedKey json operations with
  | Some selection, _ => Some selection
  | None, Some selection => Some selection
  | None, None =>
      let paths :=
        map (fun operation => parseJSONPointerWithArrayIndices json (path operation))
            (List.filter selectable operations) in
      if isEmpty paths then None
      else
        match first paths, last paths with
        | Some anchor, Some focus =>
            Some (mkSelection MULTI anchor focus None (Some paths)
                              (Some (createPathsMap paths)))
        | _, _ => None
        end
  end.

(** ** Partial JSON *)

(** What a call that gives a string can also give. *)
Inductive Text :=
  | Str (s : string)
  | Null
  | Undefined.

Definition hexDigit (n : nat) : ascii :=
  match String.get n "0123456789abcdef" with
  | Some c => c
  | None => "0"%char
  end.

Definition backslash : ascii := ascii_of_nat 92.
Definition doubleQuote : ascii := ascii_of_nat 34.

(** The escape of one character inside a JSON string: a backslash and a
    letter, the character itself, or [u00] and two hexadecimal digits for
    the other control characters. *)
Definition escapeChar (c : ascii) : string :=
  let n := nat_of_ascii c in
  if (n =? 8)%nat then String backslash "b"
  else if (n =? 9)%nat then String backslash "t"
  else if (n =? 10)%nat then String backslash "n"
  else if (n =? 12)%nat then String backslash "f"
  else if (n =? 13)%nat then String backslash "r"
  else if (n =? 34)%nat then String backslash (String doubleQuote EmptyString)
  else if (n =? 92)%nat then String backslash (String backslash EmptyString)
  else if (n <? 32)%nat then
    String backslash "u00"
    +:+ String (hexDigit (n / 16)) (String (hexDigit (n mod 16)) EmptyString)
  else String c EmptyString.

Fixpoint escapeChars (s : string) : string :=
  match s with
  | EmptyString => EmptyString
  | String c rest => escapeChar c +:+ escapeChars rest
  end.

(** [JSON.stringify] of a string. *)
Definition quote (s : string) : string :=
  String doubleQuote (escapeChars s) +:+ String doubleQuote EmptyString.

Definition newline : string := String (ascii_of_nat 10) EmptyString.

Fixpoint spaces (n : nat) : string :=
  match n with
  | O => EmptyString
  | S m => String " " (spaces m)
  end.

(** The serialization of a value at the indentation [indent], every level
    adding [gap]. *)
Fixpoint serialize (gap indent : string) (value : JSON) : string :=
  let stepback := indent in
  let indent := indent +:+ gap in
  let wrap (opening closing : string) (partial : list string) : string :=
    match partial with
    | [] => opening +:+ closing
    | _ =>
        if String.eqb gap EmptyString then
          opening +:+ String.concat "," partial +:+ closing
        else
          opening +:+ newline +:+ indent
          +:+ String.concat ("," +:+ newline +:+ indent) partial
          +:+ newline +:+ stepback +:+ closing
    end in
  match value with
  | JNull => "null"
  | JBool true => "true"
  | JBool false => "false"
  | JNum n => numberToString n
  | JStr s => quote s
  | JArr items => wrap "[" "]" (map (serialize gap indent) items)
  | JObj props =>
      wrap "{" "}"
           (map (fun prop =>
                   quote (fst prop) +:+ (if String.eqb gap EmptyString then ":" else ": ")
                   +:+ serialize gap indent (snd prop))
                props)
  end.

(** [JSON.stringify(value, null, indentation)] for a number of spaces:
    at most ten, and [undefined] for [undefined]. *)
Definition JSON_stringify (value : option JSON) (indentation : Z) : Text :=
  match value with
  | Some v => Str (serialize (spaces (Z.to_nat (Z.min 10 indentation))) EmptyString v)
  | None => Undefined
  end.

(** [JSON.stringify(key)] for the key a path ends with. *)
Definition stringifyKey (key : option Key) : Text :=
  match key with
  | Some (KStr s) => Str (quote s)
  | Some (KNum n) => Str (numberToString n)
  | None => Undefined
  end.

(** The string a template literal puts in for a value. *)
Definition toString (t : Text) : string :=
  match t with
  | Str s => s
  | Null => "null"
  | Undefined => "undefined"
  end.

Definition pathsUndefined (property : string) : JsError :=
  mkError TypeErrorC
    ("Cannot read properties of undefined (reading '" +:+ property +:+ "')").

Definition selectionToPartialJson (json : JSON) (selection : Selection)
    (indentation : Z) : Completion Text :=
  match type selection with
  | KEY => Return (stringifyKey (last (focusPath selection)))
  | VALUE =>
      let value := getIn json (focusPath selection) in
      Return (JSON_stringify value indentation)
  | MULTI =>
      if isEmpty (focusPath selection) then
        Return (JSON_stringify (Some json) indentation)
      else
        let parentPath := getParentPath selection in
        let parent := getIn json parentPath in
        if isArray parent then
          match paths selection with
          | None => Throw (pathsUndefined "length")
          | Some paths =>
              if bool_decide (length paths = 1%nat) then
                match first paths with
                | Some path => Return (JSON_stringify (getIn json path) indentation)
                | None => Untyped
                end
              else
                Return (Str (String.concat newline
                  (map (fun path =>
                          let item := getIn json path in
                          toString (JSON_stringify item indentation) +:+ ",")
                       paths)))
          end
        else
          match paths selection with
          | None => Throw (pathsUndefined "map")
          | Some paths =>
              Return (Str (String.concat newline
                (map (fun path =>
                        let key := last path in
                        let value := getIn json path in
                        toString (stringifyKey key) +:+ ": "
                        +:+ toString (JSON_stringify value indentation) +:+ ",")
                     paths)))
          end
  | _ => Return Null
  end.

(** ** A visibility provider *)

(** Modelled from the spec: the visibility provider of
    [documentState.js], which is not among the sources.  The visible
    paths are the paths in document order that no collapsed container
    hides; the children of an object come in the key order the state
    stores, those of an array by index.  The caret stops are, per visible
    node, its value, then inside it when it is an expanded container, and
    around every child its key (under an object) before and the stop
    after it behind.  The previous and the next visible path are the
    neighbours of a path in the list of visible paths, paths being
    compared by their pointers. *)
Module DocumentState.

Fixpoint depth (json : JSON) : nat :=
  match json with
  | JArr items => S (foldr (fun item d => Nat.max (depth item) d) O items)
  | JObj props => S (foldr (fun prop d => Nat.max (depth (snd prop)) d) O props)
  | _ => O
  end.

Definition isExpanded (state : option State) : bool :=
  match state with
  | Some s => bool_decide (stateExpanded s = Some true)
  | None => false
  end.

Definition childState (state : option State) (key : Key) : option State :=
  getInState state [key].

(** The children of a container the state shows expanded: their keys,
    with their values. *)
Definition visibleChildren (json : option JSON) (state : option State)
  : list (Key * option JSON) :=
  if isExpanded state then
    match json with
    | Some (JArr items) =>
        imap (fun i item => (KNum (Z.of_nat i), Some item)) items
    | Some (JObj props) =>
        match state with
        | Some s =>
            map (fun key => (KStr key, assoc key props))
                (default [] (stateKeys s))
        | None => []
        end
    | _ => []
    end
  else [].

Fixpoint visiblePathsFrom (fuel : nat) (json : option JSON)
    (state : option State) (path : Path) : list Path :=
  path ::
  match fuel with
  | O => []
  | S fuel =>
      flat_map (fun child =>
                  visiblePathsFrom fuel (snd child) (childState state (fst child))
                                   (path ++ [fst child]))
               (visibleChildren json state)
  end.

Fixpoint caretsFrom (fuel : nat) (json : option JSON)
    (state : option State) (path : Path) : list CaretPosition :=
  mkCaret path CaretValue ::
  (if isExpanded state && isObjectOrArray json
   then [mkCaret path CaretInside] else []) ++
  match fuel with
  | O => []
  | S fuel =>
      flat_map (fun child =>
                  let childPath := path ++ [fst child] in
                  (if isObject json then [mkCaret childPath CaretKey] else [])
                  ++ caretsFrom fuel (snd child) (childState state (fst child))
                                childPath
                  ++ [mkCaret childPath CaretAfter])
               (visibleChildren json state)
  end.

Definition fuelFor (json : option JSON) : nat :=
  match json with
  | Some value => depth value
  | None => O
  end.

(** Modelled from the spec: [getVisiblePaths], the visible paths in
    document order. *)
Definition getVisiblePaths (json : option JSON) (state : option State)
  : list Path :=
  visiblePathsFrom (fuelFor json) json state [].

(** Modelled from the spec: [getVisibleCaretPositions], the caret stops
    in order. *)
Definition getVisibleCaretPositions (json : JSON) (state : State)
  : list CaretPosition :=
  caretsFrom (depth json) (Some json) (Some state) [].

Definition indexOfPath (visiblePaths : list Path) (path : Path) : option nat :=
  findIndex (fun visible =>
               String.eqb (compileJSONPointer visible) (compileJSONPointer path))
            visiblePaths.

(** Modelled from the spec: [getNextVisiblePath] and
    [getPreviousVisiblePath], the visible path behind and before a path,
    if there is one. *)
Definition getNextVisiblePath (json : option JSON) (state : option State)
    (path : Path) : option Path :=
  let visiblePaths := getVisiblePaths json state in
  match indexOfPath visiblePaths path with
  | Some index => visiblePaths !! (index + 1)%nat
  | None => None
  end.

Definition getPreviousVisiblePath (json : option JSON) (state : option State)
    (path : Path) : option Path :=
  let visiblePaths := getVisiblePaths json state in
  match indexOfPath visiblePaths path with
  | Some (S index) => visiblePaths !! index
  | _ => None
  end.

End DocumentState.

(** ** Words of the specification *)

(** The multi selection of one node. *)
Definition multiAt (path : Path) : Selection :=
  mkSelection MULTI path path None (Some [path]) (Some (createPathsMap [path])).

(** A selection stands at a caret stop: same path, same type. *)
Definition atCaret (selection : Selection) (stop : CaretPosition) : Prop :=
  caretPath stop = focusPath selection
  /\ caretSelectionType (caretType stop) = type selection.

(** A key is stored in the key order of a container. *)
Definition keyStored (keys : list string) (key : option Key) : Prop :=
  exists name, key = Some (KStr name) /\ name ∈ keys.

(** Two paths diverge below their shared prefix: both go on behind it. *)
Definition diverging (anchorPath focusPath : Path) : Prop :=
  length anchorPath <> length (findSharedPath anchorPath focusPath)
  /\ length focusPath <> length (findSharedPath anchorPath focusPath).

(** A value that is there and is neither an object nor an array. *)
Definition isScalar (v : option JSON) : bool :=
  match v with
  | Some (JArr _) | Some (JObj _) | None => false
  | Some _ => true
  end.

(** The first two rules of the reconciliation: a single replace or move,
    and a list of moves that renames a key. *)
Definition isSingleReplaceOrMove (operations : list Operation) : Prop :=
  exists operation,
    operations = [operation]
    /\ (op operation = "replace" \/ op operation = "move").

Definition isRename (operations : list Operation) : Prop :=
  exists firstOp otherOps,
    operations = firstOp :: otherOps
    /\ Forall (fun operation => op operation = "move") operations
    /\ from firstOp <> Some (path firstOp)
    /\ Forall (fun operation => from operation = Some (path operation)) otherOps.

(** An operation whose target path the third rule collects. *)
Definition collected (operation : Operation) : Prop :=
  op operation <> "test"
  /\ op operation <> "remove"
  /\ ~ (op operation = "move" /\ from operation = Some (path operation)).

Global Instance collected_dec operation : Decision (collected operation).
Proof. unfold collected. apply _. Defined.

(** The target paths the third rule collects, in the order of the
    operations. *)
Definition collectedPaths (json : JSON) (operations : list Operation) : list Path :=
  map (fun operation => parseJSONPointerWithArrayIndices json (path operation))
      (filter collected operations).

(** ** Example documents *)

Definition leaf : State := mkState None None [].

(** The document [{"arr":[2,3,1],"name":"x"}], all of it expanded, with
    the key order [arr], [name]. *)
Definition exampleDoc : JSON :=
  JObj [("arr", JArr [JNum 2; JNum 3; JNum 1]); ("name", JStr "x")].

Definition exampleState : State :=
  mkState (Some true) (Some ["arr"; "name"])
    [("arr", mkState (Some true) None [("0", leaf); ("1", leaf); ("2", leaf)]);
     ("name", leaf)].

(** The document [[2,3,1]], expanded. *)
Definition arrayDoc : JSON := JArr [JNum 2; JNum 3; JNum 1].

Definition arrayState : State :=
  mkState (Some true) None [("0", leaf); ("1", leaf); ("2", leaf)].

(** Selections in the first document. *)
Definition afterArr : Selection :=
  mkSelection AFTER [KStr "arr"] [KStr "arr"] None None None.
Definition insideArr : Selection :=
  mkSelection INSIDE [KStr "arr"] [KStr "arr"] None None None.
Definition valueArr0 : Selection :=
  mkSelection VALUE [KStr "arr"; KNum 0] [KStr "arr"; KNum 0] None None None.

Definition afterName : Selection :=
  mkSelection AFTER [KStr "name"] [KStr "name"] None None None.

Definition valueArr : Selection :=
  mkSelection VALUE [KStr "arr"] [KStr "arr"] None None None.

(** The value selection of [arr] as the constructor builds it, with the
    edit flag [false]. *)
Definition valueArrBuilt : Selection :=
  mkSelection VALUE [KStr "arr"] [KStr "arr"] (Some false) None None.

(** A replace of [arr[1]]. *)
Definition replaceArr1 : Operation :=
  mkOperation "replace" "/arr/1" None (Some (JNum 3)).

(** Two elements added to [arr], and a property removed in between. *)
Definition addedAndRemoved : list Operation :=
  [mkOperation "add" "/arr/0" None (Some (JNum 2));
   mkOperation "remove" "/other" None None;
   mkOperation "add" "/arr/2" None (Some (JNum 1))].

(** The multi selection of the first two elements of [arr]. *)
Definition multiArr01 : Selection :=
  mkSelection MULTI [KStr "arr"; KNum 0] [KStr "arr"; KNum 1] None
    (Some [[KStr "arr"; KNum 0]; [KStr "arr"; KNum 1]])
    (Some (createPathsMap [[KStr "arr"; KNum 0]; [KStr "arr"; KNum 1]])).

(** ** The other functions of the file *)

(** The loop of [pathStartsWith]: every key of the parent path is, by
    [===], the key of the path at its place; a place behind the end of the
    path holds [undefined], which is no key. *)
Fixpoint keysMatch (path parentPath : Path) {struct parentPath} : bool :=
  match parentPath with
  | [] => true
  | parentKey :: parentRest =>
      match path with
      | key :: rest => if strictEq key parentKey then keysMatch rest parentRest else false
      | [] => false
      end
  end.

Definition pathStartsWith (path parentPath : Path) : bool :=
  if bool_decide (length path < length parentPath)%nat then false
  else keysMatch path parentPath.

Definition isSelectionInsidePath (selection : Selection) (path : Path) : bool :=
  pathStartsWith (focusPath selection) path
  && (bool_decide (length path < length (focusPath selection))%nat
      || bool_decide (type selection = INSIDE)).

(** [findRootPath]; reading the length of the paths of a multi selection
    that has none throws. *)
Definition findRootPath (selection : Selection) : Completion Path :=
  match type selection with
  | MULTI =>
      match paths selection with
      | None => Throw (pathsUndefined "length")
      | Some range =>
          if bool_decide (1 < length range)%nat
          then Return (initial (focusPath selection))
          else Return []
      end
  | VALUE => Return (focusPath selection)
  | _ => Return []
  end.

(** [removeEditModeFromSelection], of a selection or of [null]. *)
Definition removeEditModeFromSelection (selection : option Selection)
  : option Selection :=
  match selection with
  | Some s =>
      if bool_decide (edit s = Some true) then
        Some (mkSelection (type s) (anchorPath s) (focusPath s) (Some false)
                          (paths s) (pathsMap s))
      else selection
  | None => None
  end.

(** The loop of [getInitialSelection]: from the first visible path, on to
    the next for as long as that is longer; [None] where there is no
    visible path. *)
Fixpoint firstDeepest (visiblePaths : list Path) : option Path :=
  match visiblePaths with
  | [] => None
  | path :: rest =>
      match rest with
      | nextPath :: _ =>
          if bool_decide (length path < length nextPath)%nat
          then firstDeepest rest
          else Some path
      | [] => Some path
      end
  end.

Section InitialSelection.

(** [getVisiblePaths] of the visibility provider. *)
Variable getVisiblePaths : JSON -> State -> list Path.

(** [getInitialSelection]; reading the length of the path throws where
    there is no visible path. *)
Definition getInitialSelection (json : JSON) (state : State)
  : Completion Selection :=
  let visiblePaths := getVisiblePaths json state in
  match firstDeepest visiblePaths with
  | None => Throw (pathsUndefined "length")
  | Some path =>
      if bool_decide (length path = 0%nat) || isArray (getIn json (initial path))
      then Return (mkSelection VALUE path path None None None)
      else Return (mkSelection KEY path path None None None)
  end.

End InitialSelection.

(** The visible paths of the provider above, for a document and a state
    that are there. *)
Definition visiblePathsOf (json : JSON) (state : State) : list Path :=
  DocumentState.getVisiblePaths (Some json) (Some state).

(** Two caret stops are the same stop. *)
Global Instance CaretType_eq_dec : EqDecision CaretType.
Proof. solve_decision. Defined.

Global Instance CaretPosition_eq_dec : EqDecision CaretPosition.
Proof. solve_decision. Defined.

(** The selection the constructor builds on a caret stop. *)
Definition selectionAt (stop : CaretPosition) : Selection :=
  mkSelection (caretSelectionType (caretType stop)) (caretPath stop) (caretPath stop)
    (match caretType stop with
     | CaretKey | CaretValue => Some false
     | _ => None
     end)
    None None.

(** More selections and operations in the first document. *)
Definition multiArrName : Selection :=
  mkSelection MULTI [KStr "arr"] [KStr "name"] None
    (Some [[KStr "arr"]; [KStr "name"]])
    (Some (createPathsMap [[KStr "arr"]; [KStr "name"]])).

(** The same range, from [name] up to [arr]. *)
Definition multiNameArr : Selection :=
  mkSelection MULTI [KStr "name"] [KStr "arr"] None
    (Some [[KStr "arr"]; [KStr "name"]])
    (Some (createPathsMap [[KStr "arr"]; [KStr "name"]])).

(** The first document with [arr] collapsed, where [name] is the visible
    path next to [arr]. *)
Definition arrCollapsed : State :=
  collapsedState exampleDoc exampleState [KStr "arr"].

Definition keyArr : Selection :=
  mkSelection KEY [KStr "arr"] [KStr "arr"] None None None.

Definition keyName : Selection :=
  mkSelection KEY [KStr "name"] [KStr "name"] (Some false) None None.

(** The key [old] renamed to [arr], and [name] moved onto itself to keep
    its place behind. *)
Definition renameOldToArr : list Operation :=
  [mkOperation "move" "/arr" (Some "/old") None;
   mkOperation "move" "/name" (Some "/name") None].

(** * Properties *)

(** ** The model at work *)

Example getIn_element : getIn exampleDoc [KStr "arr"; KNum 1] = Some (JNum 3).
Proof. reflexivity. Qed.

Example getIn_nothing : getIn exampleDoc [KStr "name"; KNum 0] = None.
Proof. reflexivity. Qed.

Example expandSelection_elements :
  expandSelection exampleDoc exampleState [KStr "arr"; KNum 0] [KStr "arr"; KNum 2]
  = Return [[KStr "arr"; KNum 0]; [KStr "arr"; KNum 1]; [KStr "arr"; KNum 2]].
Proof. reflexivity. Qed.

Example expandSelection_parent_and_child :
  expandSelection exampleDoc exampleState [KStr "arr"; KNum 1] [KStr "arr"]
  = Return [[KStr "arr"]].
Proof. reflexivity. Qed.

Example expandSelection_across :
  expandSelection exampleDoc exampleState [KStr "name"] [KStr "arr"; KNum 1]
  = Return [[KStr "arr"]; [KStr "name"]].
Proof. reflexivity. Qed.

Example compileJSONPointer_escapes :
  compileJSONPointer [KStr "a/b"; KNum 2; KStr "~"] = "/a~1b/2/~0".
Proof. reflexivity. Qed.

Example parsePointer_index :
  parseJSONPointerWithArrayIndices exampleDoc "/arr/1" = [KStr "arr"; KNum 1].
Proof. reflexivity. Qed.

Example parsePointer_name :
  parseJSONPointerWithArrayIndices exampleDoc "/name/1/a~1b~01"
  = [KStr "name"; KStr "1"; KStr "a/b~1"].
Proof. reflexivity. Qed.

Example stringify_compact :
  JSON_stringify (Some arrayDoc) 0 = Str "[2,3,1]".
Proof. reflexivity. Qed.

Example stringify_indented :
  JSON_stringify (Some (JObj [("a", JArr [JNum 1; JNull]); ("b", JObj [])])) 2
  = Str ("{" +:+ newline +:+ "  " +:+ quote "a" +:+ ": [" +:+ newline
         +:+ "    1," +:+ newline +:+ "    null" +:+ newline +:+ "  ]," +:+ newline
         +:+ "  " +:+ quote "b" +:+ ": {}" +:+ newline +:+ "}").
Proof. reflexivity. Qed.

Example visible_paths :
  DocumentState.getVisiblePaths (Some exampleDoc) (Some exampleState)
  = [[]; [KStr "arr"]; [KStr "arr"; KNum 0]; [KStr "arr"; KNum 1];
     [KStr "arr"; KNum 2]; [KStr "name"]].
Proof. reflexivity. Qed.

Example visible_paths_collapsed :
  DocumentState.getVisiblePaths (Some exampleDoc)
    (Some (collapsedState exampleDoc exampleState [KStr "arr"]))
  = [[]; [KStr "arr"]; [KStr "name"]].
Proof. reflexivity. Qed.

Example caret_stops_of_array :
  DocumentState.getVisibleCaretPositions (JArr [JNum 2]) (mkState (Some true) None [])
  = [mkCaret [] CaretValue; mkCaret [] CaretInside;
     mkCaret [KNum 0] CaretValue; mkCaret [KNum 0] CaretAfter].
Proof. reflexivity. Qed.

(** ** The constructor *)

Lemma expandSelection_same json state path :
  expandSelection json state path path = Return [path].
Proof.
  unfold expandSelection, isEqual. by rewrite bool_decide_eq_true_2.
Qed.

Lemma createSelectionPlain_same json state path :
  createSelectionPlain json state (between MULTI path path) = Return (multiAt path).
Proof.
  unfold createSelectionPlain; simpl. rewrite expandSelection_same. simpl.
  unfold multiOver; simpl. by rewrite bool_decide_eq_true_2.
Qed.

(** For a schema that sets neither [next] nor [nextInside], the
    constructor is [createSelectionPlain]. *)
Lemma createSelection_plain getNext json state schema :
  schemaNext schema = false ->
  schemaNextInside schema = false ->
  createSelection getNext json state schema = createSelectionPlain json state schema.
Proof.
  intros Hnext Hinside. unfold createSelection. rewrite Hnext, Hinside.
  destruct (schemaType schema) as [[]|]; try done.
  by destruct (createSelectionPlain json state schema).
Qed.

(** The constructor builds a selection of the type it is asked for, and a
    multi selection when it expands a range. *)
Lemma createSelectionPlain_between_type json state t anchor focus selection :
  t = MULTI ->
  createSelectionPlain json state (between t anchor focus) = Return selection ->
  type selection = MULTI.
Proof.
  intros -> H. unfold createSelectionPlain in H; simpl in H.
  destruct (expandSelection json state anchor focus) as [ps| |]; simpl in H;
    try discriminate.
  unfold multiOver in H.
  repeat case_match; try discriminate; by inversion H.
Qed.

Lemma mapCompletion_Some_inv {A} (c : Completion A) (r : option A) :
  Some <$$> c = Return r -> exists a, c = Return a /\ r = Some a.
Proof.
  destruct c; simpl; intros H; try discriminate. inversion H. eauto.
Qed.

(** ** Caret stops *)

Lemma findIndexFrom_none {A} (f : A -> bool) (l : list A) i :
  (forall x, f x = false) -> findIndexFrom i f l = None.
Proof.
  intros Hf. revert i. induction l as [|x l IH]; intros i; simpl; [done|].
  by rewrite Hf.
Qed.

Lemma caretSelectionType_not_multi t : caretSelectionType t <> MULTI.
Proof. by destruct t. Qed.

(** No caret stop is of type multi: a multi selection stands at none. *)
Lemma findCaretAndSiblings_multi carets json state selection :
  type selection = MULTI ->
  findCaretAndSiblings carets json state selection = mkSiblings None None None.
Proof.
  intros Hm. unfold findCaretAndSiblings, findIndex.
  rewrite findIndexFrom_none; [done|].
  intros c. rewrite Hm. apply andb_false_intro2.
  apply bool_decide_eq_false_2, caretSelectionType_not_multi.
Qed.

(** ** Key selections *)

(** A key selection that Up returns is on a path that is not the root and
    whose parent is no array. *)
Lemma getSelectionUp_key getPrevious json state selection keep result :
  getSelectionUp getPrevious json state selection keep = Return (Some result) ->
  type result = KEY ->
  focusPath result <> [] /\ isArray (getIn json (initial (focusPath result))) = false.
Proof.
  unfold getSelectionUp. intros H Hk.
  destruct (getPrevious _ _ _) as [prev|]; [|discriminate].
  assert (Hmulti : forall a f, Some <$$> createSelectionPlain json state (between MULTI a f)
                               = Return (Some result) -> False).
  { intros a f Hc. apply mapCompletion_Some_inv in Hc as (s & Hs & [= ->]).
    apply createSelectionPlain_between_type in Hs; [congruence|done]. }
  destruct keep.
  - destruct (_ || _); exfalso; eauto.
  - destruct (type selection) eqn:Ht; try (exfalso; eauto; fail).
    + destruct (isArray _ || isEmpty prev) eqn:Hc; inversion H; subst; simpl in *;
        [discriminate|].
      apply orb_false_elim in Hc as [Ha He]. split; [|done].
      by destruct prev.
    + inversion H; subst. discriminate.
Qed.

(** The same for Down, where the provider never gives the root as the
    path next to another. *)
Lemma getSelectionDown_key getNext json state selection keep result :
  (forall j s p, getNext j s p <> Some []) ->
  getSelectionDown getNext json state selection keep = Return (Some result) ->
  type result = KEY ->
  focusPath result <> [] /\ isArray (getIn json (initial (focusPath result))) = false.
Proof.
  unfold getSelectionDown. intros Hroot H Hk.
  destruct (getNext _ _ (focusPath selection)) as [next|] eqn:Hn; [|discriminate].
  assert (Hmulti : forall a f, Some <$$> createSelectionPlain json state (between MULTI a f)
                               = Return (Some result) -> False).
  { intros a f Hc. apply mapCompletion_Some_inv in Hc as (s & Hs & [= ->]).
    apply createSelectionPlain_between_type in Hs; [congruence|done]. }
  destruct keep.
  - destruct (getNext _ (Some (collapsedState _ _ _)) _) as [after|]; [|discriminate].
    destruct (type selection); exfalso; eauto.
  - destruct (type selection) eqn:Ht; try (exfalso; eauto; fail).
    + destruct (isArray _) eqn:Hc; inversion H; subst; simpl in *; [discriminate|].
      split; [|done]. intros ->. by apply (Hroot _ _ _ Hn).
    + inversion H; subst. discriminate.
Qed.

(** C1 (the code departs from it): a key selection is never produced for
    the document root.  Left, not extending, from a multi selection of
    the root of a document that is no array gives the key selection of
    the root: the branch that turns a multi selection into a key selection
    tests that the parent is no array, and takes the root for its own
    parent. *)
Theorem getSelectionLeft_key_at_root carets json state selection :
  type selection = MULTI ->
  focusPath selection = [] ->
  isArray (Some json) = false ->
  getSelectionLeft carets json state selection false
  = Return (Some (mkSelection KEY [] [] (Some false) None None)).
Proof.
  intros Hm Hf Ha. unfold getSelectionLeft.
  rewrite findCaretAndSiblings_multi by done. cbn [caret previous].
  rewrite Hm, Hf. change (getIn json (initial [])) with (Some json).
  by rewrite Ha.
Qed.

(** The multi selection of the root is what the constructor builds for the
    root, and Left turns it into a key selection of the root of
    [{"arr":[2,3,1],"name":"x"}]. *)
Lemma getSelectionLeft_key_at_root_witness :
  createSelectionPlain exampleDoc exampleState (between MULTI [] [])
  = Return (multiAt [])
  /\ getSelectionLeft DocumentState.getVisibleCaretPositions exampleDoc
       exampleState (multiAt []) false
     = Return (Some (mkSelection KEY [] [] (Some false) None None)).
Proof.
  split; [apply createSelectionPlain_same|].
  apply (getSelectionLeft_key_at_root DocumentState.getVisibleCaretPositions
           exampleDoc exampleState (multiAt [])); reflexivity.
Defined.

(** ** Extending up and down *)

(** C2, as it is written, fails: in [{"arr":[2,3,1],"name":"x"}], Down
    with the range extended from the stop after [arr] gives the multi
    selection of [name], and from the stop inside [arr] that of its first
    element, neither anchored at the focus path [arr]; and Up from the
    value of [arr[0]] gives the multi selection of [arr], the anchor
    [arr[0]] absorbed into its parent. *)
Lemma extending_anchor_counterexample :
  (exists result,
     getSelectionDown DocumentState.getNextVisiblePath exampleDoc exampleState
       afterArr true = Return (Some result)
     /\ type result = MULTI /\ anchorPath result = [KStr "name"]
     /\ anchorPath result <> focusPath afterArr)
  /\ (exists result,
        getSelectionDown DocumentState.getNextVisiblePath exampleDoc exampleState
          insideArr true = Return (Some result)
        /\ type result = MULTI /\ anchorPath result = [KStr "arr"; KNum 0]
        /\ anchorPath result <> focusPath insideArr)
  /\ (exists result,
        getSelectionUp DocumentState.getPreviousVisiblePath exampleDoc exampleState
          valueArr0 true = Return (Some result)
        /\ type result = MULTI /\ anchorPath result = [KStr "arr"]
        /\ anchorPath result <> anchorPath valueArr0).
Proof.
  split; [|split].
  - exists (multiAt [KStr "name"]). repeat split; try done; by vm_compute.
  - exists (multiAt [KStr "arr"; KNum 0]). repeat split; try done; by vm_compute.
  - exists (multiAt [KStr "arr"]). repeat split; try done; by vm_compute.
Qed.

(** The anchor the constructor gives a range is the anchor it was asked
    for whenever that path is an end of the expanded range. *)
Lemma createSelectionPlain_anchor json state anchor focus result :
  createSelectionPlain json state (between MULTI anchor focus) = Return result ->
  type result = MULTI
  /\ forall range, paths result = Some range ->
       first range = Some anchor \/ last range = Some anchor ->
       anchorPath result = anchor.
Proof.
  intros H. split; [by eapply createSelectionPlain_between_type|].
  unfold createSelectionPlain in H; simpl in H.
  destruct (expandSelection json state anchor focus) as [ps| |] eqn:He;
    simpl in H; try discriminate.
  unfold multiOver in H.
  destruct (bool_decide (Some focus = last ps) || bool_decide (Some anchor = first ps))
    eqn:Hlast.
  - destruct (first ps) as [a|] eqn:Hfirst; [|discriminate].
    destruct (last ps) as [f|] eqn:Hl; [|discriminate].
    inversion H; subst; simpl. intros range [= <-] [Hend|Hend]; [congruence|].
    apply orb_true_iff in Hlast as [Hfocus|Hanchor].
    + apply bool_decide_eq_true_1 in Hfocus.
      assert (focus = anchor) as -> by congruence.
      rewrite expandSelection_same in He. inversion He; subst.
      simpl in Hfirst. congruence.
    + apply bool_decide_eq_true_1 in Hanchor. congruence.
  - destruct (last ps) as [f|] eqn:Hl; [|discriminate].
    destruct (first ps) as [a|] eqn:Hfirst; [|discriminate].
    inversion H; subst; simpl. intros range [= <-] [Hend|Hend]; [|congruence].
    apply orb_false_elim in Hlast as [_ Hanchor].
    apply bool_decide_eq_false_1 in Hanchor. congruence.
Qed.

Lemma findSharedPath_siblings parent ka kf :
  ka <> kf -> findSharedPath (parent ++ [ka]) (parent ++ [kf]) = parent.
Proof.
  intros Hne. induction parent as [|k parent IH]; simpl; unfold strictEq.
  - by rewrite bool_decide_eq_false_2.
  - rewrite bool_decide_eq_true_2 by done. by rewrite IH.
Qed.

Lemma indexOfFrom_found keys key start :
  indexOfFrom start keys key <> -1 -> 0 <= start ->
  start <= indexOfFrom start keys key
  /\ exists name, key = Some (KStr name)
       /\ keys !! Z.to_nat (indexOfFrom start keys key - start) = Some name.
Proof.
  revert start. induction keys as [|k keys IH]; intros start; simpl; [done|].
  intros Hfound Hstart. case_bool_decide as Hk.
  - split; [lia|]. exists k. split; [done|]. by rewrite Z.sub_diag.
  - destruct (IH (start + 1) Hfound ltac:(lia)) as (Hle & name & Hname & Hlook).
    split; [lia|]. exists name. split; [done|].
    replace (Z.to_nat (indexOfFrom (start + 1) keys key - start))
      with (S (Z.to_nat (indexOfFrom (start + 1) keys key - (start + 1)))) by lia.
    done.
Qed.

Lemma indexOf_found keys key :
  indexOf keys key <> -1 ->
  0 <= indexOf keys key
  /\ exists name, key = Some (KStr name)
       /\ keys !! Z.to_nat (indexOf keys key) = Some name.
Proof.
  intros H. destruct (indexOfFrom_found keys key 0 H ltac:(lia)) as (Hle & name & Hn & Hl).
  split; [done|]. exists name. split; [done|]. by rewrite Z.sub_0_r in Hl.
Qed.

(** The ends of a range of keys. *)
Lemma objectRange_ends sharedPath keys startIndex endIndex nameS nameE :
  0 <= startIndex <= endIndex ->
  keys !! Z.to_nat startIndex = Some nameS ->
  keys !! Z.to_nat endIndex = Some nameE ->
  first (objectRange sharedPath keys startIndex endIndex)
  = Some (sharedPath ++ [KStr nameS])
  /\ last (objectRange sharedPath keys startIndex endIndex)
     = Some (sharedPath ++ [KStr nameE]).
Proof.
  intros Hle Hs He. unfold objectRange, first.
  set (n := Z.to_nat (endIndex - startIndex + 1)).
  set (s := Z.to_nat startIndex).
  assert (Hlen : length (take n (drop s keys)) = n).
  { rewrite length_take, length_drop. apply lookup_lt_Some in He.
    unfold s, n. lia. }
  split.
  - rewrite head_lookup, list_lookup_fmap, lookup_take_lt by lia.
    rewrite lookup_drop, Nat.add_0_r. fold s in Hs. by rewrite Hs.
  - rewrite last_lookup, list_lookup_fmap, length_map, Hlen.
    rewrite lookup_take_lt by lia. rewrite lookup_drop.
    assert (n = S (Z.to_nat (endIndex - startIndex))) as -> by (unfold n; lia).
    simpl.
    replace (s + Z.to_nat (endIndex - startIndex))%nat with (Z.to_nat endIndex)
      by (unfold s; lia).
    by rewrite He.
Qed.

Lemma arrayRange_ends sharedPath a f :
  first (arrayRange sharedPath (Some (Z.min a f)) (Some (Z.max a f)))
  = Some (sharedPath ++ [KNum (Z.min a f)])
  /\ last (arrayRange sharedPath (Some (Z.min a f)) (Some (Z.max a f)))
     = Some (sharedPath ++ [KNum (Z.max a f)]).
Proof.
  unfold arrayRange, first.
  set (n := Z.max a f - Z.min a f + 1).
  assert (0 < n) by lia.
  split.
  - rewrite head_lookup, list_lookup_fmap, lookup_seqZ_lt by lia.
    simpl. by rewrite Z.add_0_r.
  - rewrite last_lookup, list_lookup_fmap, length_map, length_seqZ.
    assert (Z.to_nat n = S (Z.to_nat (n - 1))) as -> by lia. simpl.
    rewrite lookup_seqZ_lt by lia. simpl. do 4 f_equal. unfold n. lia.
Qed.

Lemma lookup_snoc_key (parent : Path) (k : Key) :
  (parent ++ [k]) !! length parent = Some k.
Proof. by rewrite list_lookup_middle. Qed.

(** Between two siblings, keys of one object that the state stores or
    indices of one array, the range the constructor builds has the anchor
    and the focus it was asked for. *)
Lemma createSelectionPlain_siblings json state parent anchorKey focusKey result :
  isObject (getIn json parent) = true
  \/ (exists a f, anchorKey = KNum a /\ focusKey = KNum f) ->
  createSelectionPlain json state
    (between MULTI (parent ++ [anchorKey]) (parent ++ [focusKey])) = Return result ->
  anchorPath result = parent ++ [anchorKey]
  /\ focusPath result = parent ++ [focusKey].
Proof.
  intros Hkind H.
  destruct (decide (anchorKey = focusKey)) as [->|Hne].
  { rewrite createSelectionPlain_same in H. by inversion H. }
  assert (Hends : exists range, expandSelection json state (parent ++ [anchorKey])
                                  (parent ++ [focusKey]) = Return range
            /\ ((first range = Some (parent ++ [anchorKey])
                 /\ last range = Some (parent ++ [focusKey]))
                \/ (first range = Some (parent ++ [focusKey])
                    /\ last range = Some (parent ++ [anchorKey])))).
  { unfold createSelectionPlain in H; simpl in H.
    destruct (expandSelection _ _ _ _) as [range| |] eqn:He; try discriminate.
    exists range. split; [done|]. clear H.
    unfold expandSelection, isEqual in He.
    rewrite bool_decide_eq_false_2 in He by (intros Heq; by simplify_list_eq).
    rewrite findSharedPath_siblings in He by done.
    rewrite !length_app in He. simpl in He.
    rewrite !bool_decide_eq_false_2 in He by lia. simpl in He.
    rewrite !lookup_snoc_key in He.
    destruct (isObject (getIn json parent)) eqn:Ho.
    - destruct (getStateKeys state parent) as [keys|]; [|discriminate].
      destruct (indexOf keys (Some anchorKey) =? -1) eqn:Hai; simpl in He.
      { by destruct (getIn json parent) as [[]|]. }
      destruct (indexOf keys (Some focusKey) =? -1) eqn:Hfi; simpl in He.
      { by destruct (getIn json parent) as [[]|]. }
      inversion He; subst range; clear He.
      apply Z.eqb_neq in Hai, Hfi.
      destruct (indexOf_found _ _ Hai) as (Ha0 & na & [= ->] & Hla).
      destruct (indexOf_found _ _ Hfi) as (Hf0 & nf & [= ->] & Hlf).
      destruct (Z.le_ge_cases (indexOf keys (Some (KStr na)))
                              (indexOf keys (Some (KStr nf)))) as [Hle|Hle].
      + left. rewrite Z.min_l, Z.max_r by done.
        by apply objectRange_ends.
      + right. rewrite Z.min_r, Z.max_l by done.
        by apply objectRange_ends.
    - cbn [bind] in He. destruct Hkind as [|(a & f & -> & ->)]; [done|].
      destruct (isArray (getIn json parent)); [|discriminate].
      cbn [toNumber mathMin mathMax] in He.
      inversion He; subst range; clear He.
      destruct (arrayRange_ends parent a f) as [Hfirst Hlast].
      unfold arrayRange in Hfirst, Hlast.
      destruct (Z.le_ge_cases a f) as [Hle|Hle].
      + left. rewrite Hfirst, Hlast, Z.min_l, Z.max_r by done. done.
      + right. rewrite Hfirst, Hlast, Z.min_r, Z.max_l by done. done. }
  destruct Hends as (range & He & Hends).
  unfold createSelectionPlain in H; simpl in H. rewrite He in H; simpl in H.
  unfold multiOver in H.
  destruct Hends as [[Hfirst Hlast]|[Hfirst Hlast]]; rewrite Hfirst, Hlast in H.
  - rewrite bool_decide_eq_true_2 in H by done. simpl in H. by inversion H.
  - rewrite !bool_decide_eq_false_2 in H by (intros [= Heq]; by simplify_list_eq).
    simpl in H. by inversion H.
Qed.

(** C2 (amended): with the range extended, Up from a stop after or inside
    a node gives the multi selection of the anchor path of the selection,
    which is that of its focus path where the two are one path; Down
    gives the multi selection of the path behind the focus node from a
    stop after, and of the next visible path from a stop inside.  From
    the other types the result is the range the constructor expands from
    the original anchor path to the new focus, whose anchor is the
    original anchor path whenever that path is an end of the expanded
    range, as it is when the anchor and the new focus are siblings: keys
    of one object, or indices of one array. *)
Theorem extending_anchor getNext getPrevious json state selection :
  (forall previousPath,
     getPrevious (Some json) (Some state) (focusPath selection) = Some previousPath ->
     getSelectionUp getPrevious json state selection true
     = if bool_decide (type selection = AFTER) || bool_decide (type selection = INSIDE)
       then Return (Some (multiAt (anchorPath selection)))
       else Some <$$> createSelectionPlain json state
              (between MULTI (anchorPath selection) previousPath))
  /\ (forall nextPath nextPathAfter,
        getNext (Some json) (Some state) (focusPath selection) = Some nextPath ->
        getNext (Some json) (Some (collapsedState json state (focusPath selection)))
                (focusPath selection) = Some nextPathAfter ->
        getSelectionDown getNext json state selection true
        = match type selection with
          | AFTER => Return (Some (multiAt nextPathAfter))
          | INSIDE => Return (Some (multiAt nextPath))
          | _ => Some <$$> createSelectionPlain json state
                   (between MULTI (anchorPath selection) nextPathAfter)
          end)
  /\ (forall focus result,
        createSelectionPlain json state (between MULTI (anchorPath selection) focus)
        = Return result ->
        type result = MULTI
        /\ forall range, paths result = Some range ->
             first range = Some (anchorPath selection)
             \/ last range = Some (anchorPath selection) ->
             anchorPath result = anchorPath selection)
  /\ (forall parent anchorKey focusKey result,
        anchorPath selection = parent ++ [anchorKey] ->
        isObject (getIn json parent) = true
        \/ (exists a f, anchorKey = KNum a /\ focusKey = KNum f) ->
        createSelectionPlain json state
          (between MULTI (anchorPath selection) (parent ++ [focusKey])) = Return result ->
        anchorPath result = anchorPath selection
        /\ focusPath result = parent ++ [focusKey]).
Proof.
  split; [|split; [|split]]; cycle 3.
  { intros parent anchorKey focusKey result ->.
    apply createSelectionPlain_siblings. }
  - intros previousPath Hp. unfold getSelectionUp. rewrite Hp.
    destruct (_ || _); [|done]. by rewrite createSelectionPlain_same.
  - intros nextPath nextPathAfter Hn Ha. unfold getSelectionDown.
    rewrite Hn, Ha. destruct (type selection); try done;
      by rewrite createSelectionPlain_same.
  - intros focus result. apply createSelectionPlain_anchor.
Qed.

(** Up from the stop after [arr] selects [arr]; Down from the key
    selection of [arr] to [name] keeps the anchor [arr]. *)
Lemma extending_anchor_witness :
  getSelectionUp DocumentState.getPreviousVisiblePath exampleDoc exampleState
    afterArr true = Return (Some (multiAt [KStr "arr"]))
  /\ getSelectionDown DocumentState.getNextVisiblePath exampleDoc exampleState
       afterArr true = Return (Some (multiAt [KStr "name"])).
Proof.
  destruct (extending_anchor DocumentState.getNextVisiblePath
              DocumentState.getPreviousVisiblePath exampleDoc exampleState afterArr)
    as (Hup & Hdown & _ & _).
  split.
  - apply (Hup []). reflexivity.
  - apply (Hdown [KStr "arr"; KNum 0] [KStr "name"]); reflexivity.
Defined.

(** ** The boundaries of the document *)

Lemma findIndexFrom_app {A} (f : A -> bool) (l1 l2 : list A) i :
  Forall (fun x => f x = false) l1 ->
  findIndexFrom i f (l1 ++ l2) = findIndexFrom (i + length l1) f l2.
Proof.
  intros H. revert i. induction H as [|x l1 Hx _ IH]; intros i; simpl.
  - by rewrite Nat.add_0_r.
  - rewrite Hx, IH. f_equal. lia.
Qed.

Lemma atCaret_true selection stop :
  atCaret selection stop ->
  isEqual (caretPath stop) (focusPath selection)
  && bool_decide (caretSelectionType (caretType stop) = type selection) = true.
Proof.
  intros [Hp Ht]. unfold isEqual. by rewrite !bool_decide_eq_true_2.
Qed.

Lemma atCaret_false selection stop :
  ~ atCaret selection stop ->
  isEqual (caretPath stop) (focusPath selection)
  && bool_decide (caretSelectionType (caretType stop) = type selection) = false.
Proof.
  intros Hn. unfold isEqual. apply not_true_is_false. intros H.
  apply andb_prop in H as [Hp Ht]. apply Hn. split; by eapply bool_decide_eq_true_1.
Qed.

Lemma atCaret_not_multi selection stop :
  atCaret selection stop -> type selection <> MULTI.
Proof. intros [_ <-]. apply caretSelectionType_not_multi. Qed.

(** At the first caret stop: the stop is found and has no predecessor. *)
Lemma findCaretAndSiblings_first carets json state selection stop rest :
  carets json state = stop :: rest ->
  atCaret selection stop ->
  caret (findCaretAndSiblings carets json state selection) = Some stop
  /\ previous (findCaretAndSiblings carets json state selection) = None.
Proof.
  intros Hc Hat. unfold findCaretAndSiblings, findIndex. rewrite Hc. simpl.
  by rewrite (atCaret_true _ _ Hat).
Qed.

(** At the last caret stop, and at no stop before it: the stop is found
    and has no successor. *)
Lemma findCaretAndSiblings_last carets json state selection stop before :
  carets json state = before ++ [stop] ->
  Forall (fun other => ~ atCaret selection other) before ->
  atCaret selection stop ->
  caret (findCaretAndSiblings carets json state selection) = Some stop
  /\ next (findCaretAndSiblings carets json state selection) = None.
Proof.
  intros Hc Hbefore Hat. unfold findCaretAndSiblings, findIndex. rewrite Hc.
  rewrite findIndexFrom_app.
  2:{ eapply Forall_impl; [exact Hbefore|]. intros c. apply atCaret_false. }
  simpl. rewrite (atCaret_true _ _ Hat). simpl. split.
  - by rewrite list_lookup_middle.
  - rewrite bool_decide_eq_false_2; [done|]. rewrite length_app. simpl. lia.
Qed.

(** In the document [[2,3,1]] the value of the root is the first caret
    stop, and Left from it, not extending, gives the multi selection of
    the root. *)
Lemma boundary_counterexample :
  (exists rest,
     DocumentState.getVisibleCaretPositions arrayDoc arrayState
     = mkCaret [] CaretValue :: rest)
  /\ atCaret selectAll (mkCaret [] CaretValue)
  /\ getSelectionLeft DocumentState.getVisibleCaretPositions arrayDoc arrayState
       selectAll false = Return (Some (multiAt []))
  /\ getSelectionLeft DocumentState.getVisibleCaretPositions arrayDoc arrayState
       selectAll false <> Return None.
Proof.
  assert (H : getSelectionLeft DocumentState.getVisibleCaretPositions arrayDoc
                arrayState selectAll false = Return (Some (multiAt [])))
    by (by vm_compute).
  split; [eexists; by vm_compute|]. split; [by split|].
  split; [exact H | by rewrite H].
Qed.

(** Left, not extending, from the first caret stop: the multi selection
    of the same path for a value whose parent is an array, the root being
    taken for its own parent, and null for the rest. *)
Lemma getSelectionLeft_first_stop carets json state selection stop rest :
  carets json state = stop :: rest ->
  atCaret selection stop ->
  getSelectionLeft carets json state selection false
  = if bool_decide (type selection = VALUE)
       && isArray (getIn json (initial (focusPath selection)))
    then Return (Some (multiAt (focusPath selection)))
    else Return None.
Proof.
  intros Hc Hat. unfold getSelectionLeft.
  destruct (findCaretAndSiblings_first _ _ _ _ _ _ Hc Hat) as [-> ->].
  destruct (_ && _); [by rewrite createSelectionPlain_same|].
  rewrite (bool_decide_eq_false_2 (type selection = MULTI)); [done|].
  by eapply atCaret_not_multi.
Qed.

(** C3 (the code departs from it): Left that does not extend, from the
    first caret stop of the document, is to give no change.  From the
    value of the root of a document that is an array it gives the multi
    selection of the root: the branch that turns a value under an array
    into a multi selection takes the root for its own parent, as the
    branch of C1 does. *)
Theorem getSelectionLeft_value_at_root carets json state selection stop rest :
  carets json state = stop :: rest ->
  atCaret selection stop ->
  type selection = VALUE ->
  focusPath selection = [] ->
  isArray (Some json) = true ->
  getSelectionLeft carets json state selection false
  = Return (Some (multiAt [])).
Proof.
  intros Hc Hat Ht Hf Ha.
  rewrite (getSelectionLeft_first_stop _ _ _ _ _ _ Hc Hat), Ht, Hf.
  change (getIn json (initial [])) with (Some json). by rewrite Ha.
Qed.

(** The value of the root is the first caret stop of [[2,3,1]], and Left
    from it gives the multi selection of the root, not null. *)
Lemma getSelectionLeft_value_at_root_witness :
  getSelectionLeft DocumentState.getVisibleCaretPositions arrayDoc arrayState
    selectAll false = Return (Some (multiAt []))
  /\ Return (Some (multiAt [])) <> (Return None : Completion (option Selection)).
Proof.
  split; [|discriminate].
  apply (getSelectionLeft_value_at_root DocumentState.getVisibleCaretPositions
           arrayDoc arrayState selectAll (mkCaret [] CaretValue)
           (tail (DocumentState.getVisibleCaretPositions arrayDoc arrayState)));
    [reflexivity | split; reflexivity | reflexivity..].
Defined.

(** At the boundaries of the document: where there is no previous or next
    visible path, Up and Down return null; Right, not extending, from the
    last caret stop returns null; Left, not extending, from the first
    caret stop returns null where the selection is no value selection
    with an array for parent.  None of them throws. *)
Theorem boundary_no_change getNext getPrevious carets json state selection :
  (forall keep,
     getPrevious (Some json) (Some state) (focusPath selection) = None ->
     getSelectionUp getPrevious json state selection keep = Return None)
  /\ (forall keep,
        getNext (Some json) (Some state) (focusPath selection) = None ->
        getSelectionDown getNext json state selection keep = Return None)
  /\ (forall stop before,
        carets json state = before ++ [stop] ->
        Forall (fun other => ~ atCaret selection other) before ->
        atCaret selection stop ->
        getSelectionRight carets json state selection false = Return None)
  /\ (forall stop rest,
        carets json state = stop :: rest ->
        atCaret selection stop ->
        bool_decide (type selection = VALUE)
        && isArray (getIn json (initial (focusPath selection))) = false ->
        getSelectionLeft carets json state selection false = Return None).
Proof.
  repeat split.
  - intros keep Hp. unfold getSelectionUp. by rewrite Hp.
  - intros keep Hn. unfold getSelectionDown. by rewrite Hn.
  - intros stop before Hc Hbefore Hat. unfold getSelectionRight.
    destruct (findCaretAndSiblings_last _ _ _ _ _ _ Hc Hbefore Hat) as [-> ->].
    rewrite bool_decide_eq_false_2; [done|]. by eapply atCaret_not_multi.
  - intros stop rest Hc Hat Hv.
    by rewrite (getSelectionLeft_first_stop _ _ _ _ _ _ Hc Hat), Hv.
Qed.

(** In [{"arr":[2,3,1],"name":"x"}]: Up and Left from the value of the
    root, and Down and Right from the stop after [name], return null. *)
Lemma boundary_no_change_witness :
  getSelectionUp DocumentState.getPreviousVisiblePath exampleDoc exampleState
    selectAll false = Return None
  /\ getSelectionLeft DocumentState.getVisibleCaretPositions exampleDoc exampleState
       selectAll false = Return None
  /\ getSelectionDown DocumentState.getNextVisiblePath exampleDoc exampleState
       afterName false = Return None
  /\ getSelectionRight DocumentState.getVisibleCaretPositions exampleDoc exampleState
       afterName false = Return None.
Proof.
  destruct (boundary_no_change DocumentState.getNextVisiblePath
              DocumentState.getPreviousVisiblePath
              DocumentState.getVisibleCaretPositions exampleDoc exampleState selectAll)
    as (Hup & _ & _ & Hleft).
  destruct (boundary_no_change DocumentState.getNextVisiblePath
              DocumentState.getPreviousVisiblePath
              DocumentState.getVisibleCaretPositions exampleDoc exampleState afterName)
    as (_ & Hdown & Hright & _).
  split; [|split; [|split]].
  - apply Hup. reflexivity.
  - apply (Hleft (mkCaret [] CaretValue)
             (tail (DocumentState.getVisibleCaretPositions exampleDoc exampleState)));
      [reflexivity | split; reflexivity | reflexivity].
  - apply Hdown. reflexivity.
  - apply (Hright (mkCaret [KStr "name"] CaretAfter)
             (removelast (DocumentState.getVisibleCaretPositions exampleDoc exampleState)));
      [reflexivity | | split; reflexivity].
    vm_compute. repeat constructor; intros [Hp Ht]; discriminate.
Defined.

(** ** Range expansion *)

Lemma findSharedPath_same path : findSharedPath path path = path.
Proof.
  induction path as [|k path IH]; simpl; [done|].
  unfold strictEq. rewrite bool_decide_eq_true_2 by done. by rewrite IH.
Qed.

Lemma findSharedPath_comm path1 path2 :
  findSharedPath path1 path2 = findSharedPath path2 path1.
Proof.
  revert path2. induction path1 as [|k1 path1 IH]; intros [|k2 path2]; simpl;
    try done.
  unfold strictEq. destruct (decide (k1 = k2)) as [->|Hne].
  - rewrite !bool_decide_eq_true_2 by done. by rewrite IH.
  - rewrite !bool_decide_eq_false_2; [done|congruence|done].
Qed.

Lemma diverging_differ anchorPath focusPath :
  diverging anchorPath focusPath -> anchorPath <> focusPath.
Proof. intros [Ha _] ->. by rewrite findSharedPath_same in Ha. Qed.

Lemma indexOfFrom_absent keys key i :
  ~ keyStored keys key -> indexOfFrom i keys key = -1.
Proof.
  revert i. induction keys as [|k keys IH]; intros i Hn; simpl; [done|].
  case_bool_decide as Hk.
  - exfalso. apply Hn. exists k. split; [done|]. apply list_elem_of_here.
  - apply IH. intros (name & Hname & Hin). apply Hn. exists name.
    split; [done|]. by apply list_elem_of_further.
Qed.

(** C4, as it is written, fails in the class of the error: where the
    container is the string ["x"], and where the key [nam] is not in the
    key order of the root, the error thrown is an [Error] with the
    message "Failed to create selection", no [RangeError]. *)
Lemma expandSelection_error_counterexample :
  (diverging [KStr "name"; KNum 0] [KStr "name"; KNum 1]
   /\ isScalar (getIn exampleDoc
                  (findSharedPath [KStr "name"; KNum 0] [KStr "name"; KNum 1])) = true
   /\ exists e,
        expandSelection exampleDoc exampleState
          [KStr "name"; KNum 0] [KStr "name"; KNum 1] = Throw e
        /\ errorClass e <> RangeErrorC
        /\ message e = "Failed to create selection")
  /\ (diverging [KStr "nam"] [KStr "arr"]
      /\ isObject (getIn exampleDoc (findSharedPath [KStr "nam"] [KStr "arr"])) = true
      /\ exists e,
           expandSelection exampleDoc exampleState [KStr "nam"] [KStr "arr"] = Throw e
           /\ errorClass e <> RangeErrorC
           /\ message e = "Failed to create selection").
Proof.
  split; (split; [by split|]); (split; [done|]);
    exists failedToCreateSelection; by repeat split.
Qed.

(** C4 (amended): for two paths that diverge below their shared prefix,
    range expansion throws the [Error] with the message "Failed to create
    selection", and returns no range, whenever the value at the shared
    prefix is a scalar, or is an object and either diverging key is absent
    from the key order the state stores for it. *)
Theorem expandSelection_ill_formed json state anchorPath focusPath :
  diverging anchorPath focusPath ->
  let sharedPath := findSharedPath anchorPath focusPath in
  isScalar (getIn json sharedPath) = true
  \/ (isObject (getIn json sharedPath) = true
      /\ exists keys,
           getStateKeys state sharedPath = Some keys
           /\ (~ keyStored keys (anchorPath !! length sharedPath)
               \/ ~ keyStored keys (focusPath !! length sharedPath))) ->
  expandSelection json state anchorPath focusPath = Throw failedToCreateSelection.
Proof.
  intros Hd sharedPath Hcase. pose proof (diverging_differ _ _ Hd) as Hne.
  destruct Hd as [Ha Hf]. unfold expandSelection, isEqual.
  rewrite bool_decide_eq_false_2 by done.
  rewrite !bool_decide_eq_false_2 by done. simpl. fold sharedPath.
  destruct Hcase as [Hs | (Ho & keys & Hk & Habsent)].
  - destruct (getIn json sharedPath) as [[]|]; try discriminate; done.
  - rewrite Ho, Hk.
    assert (indexOf keys (anchorPath !! length sharedPath) = -1
            \/ indexOf keys (focusPath !! length sharedPath) = -1) as Hi.
    { destruct Habsent as [H|H]; [left|right]; by apply indexOfFrom_absent. }
    assert (negb (indexOf keys (anchorPath !! length sharedPath) =? -1)
            && negb (indexOf keys (focusPath !! length sharedPath) =? -1) = false)
      as ->.
    { destruct Hi as [-> | ->]; simpl; [done|by rewrite andb_false_r]. }
    simpl. by destruct (getIn json sharedPath) as [[]|].
Qed.

(** Where the state stores no key order for an object at the shared
    prefix, reading it throws a [TypeError]. *)
Lemma expandSelection_keys_undefined json state anchorPath focusPath :
  diverging anchorPath focusPath ->
  isObject (getIn json (findSharedPath anchorPath focusPath)) = true ->
  getStateKeys state (findSharedPath anchorPath focusPath) = None ->
  expandSelection json state anchorPath focusPath = Throw keysUndefined.
Proof.
  intros Hd Ho Hk. pose proof (diverging_differ _ _ Hd) as Hne.
  destruct Hd as [Ha Hf]. unfold expandSelection, isEqual.
  rewrite bool_decide_eq_false_2 by done.
  rewrite !bool_decide_eq_false_2 by done. simpl. by rewrite Ho, Hk.
Qed.

Lemma expandSelection_ill_formed_witness :
  expandSelection exampleDoc exampleState [KStr "name"; KNum 0] [KStr "name"; KNum 1]
  = Throw failedToCreateSelection
  /\ expandSelection exampleDoc exampleState [KStr "nam"] [KStr "arr"]
     = Throw failedToCreateSelection.
Proof.
  split.
  - apply expandSelection_ill_formed; [by split|]. left. reflexivity.
  - apply expandSelection_ill_formed; [by split|]. right.
    split; [reflexivity|]. exists ["arr"; "name"]. split; [reflexivity|].
    left. intros (name & [= <-] & Hin). simpl in Hin.
    apply list_elem_of_In in Hin. simpl in Hin.
    destruct Hin as [H|[H|[]]]; discriminate.
Defined.

Lemma mathMin_comm a b : mathMin a b = mathMin b a.
Proof. destruct a, b; simpl; try done. by rewrite Z.min_comm. Qed.

Lemma mathMax_comm a b : mathMax a b = mathMax b a.
Proof. destruct a, b; simpl; try done. by rewrite Z.max_comm. Qed.

(** Range expansion does not tell the anchor from the focus: the paths,
    their order, and the errors are the same. *)
Lemma expandSelection_comm json state anchorPath focusPath :
  expandSelection json state anchorPath focusPath
  = expandSelection json state focusPath anchorPath.
Proof.
  unfold expandSelection, isEqual.
  destruct (decide (anchorPath = focusPath)) as [->|Hne]; [done|].
  rewrite (bool_decide_eq_false_2 (anchorPath = focusPath)) by done.
  rewrite (bool_decide_eq_false_2 (focusPath = anchorPath)) by congruence.
  rewrite (findSharedPath_comm focusPath anchorPath).
  set (sharedPath := findSharedPath anchorPath focusPath).
  rewrite orb_comm. destruct (_ || _); [done|].
  rewrite (mathMin_comm (toNumber (focusPath !! _))).
  rewrite (mathMax_comm (toNumber (focusPath !! _))).
  destruct (isObject _); [|done].
  destruct (getStateKeys state sharedPath) as [keys|]; [|done].
  rewrite (andb_comm (negb (indexOf keys (focusPath !! _) =? -1))).
  rewrite (Z.min_comm (indexOf keys (focusPath !! _))).
  by rewrite (Z.max_comm (indexOf keys (focusPath !! _))).
Qed.

(** C5: where range expansion succeeds from an anchor to a focus, it
    succeeds from the focus to the anchor, with the same set of paths. *)
Theorem expandSelection_symmetric json state anchorPath focusPath range :
  expandSelection json state anchorPath focusPath = Return range ->
  exists range',
    expandSelection json state focusPath anchorPath = Return range'
    /\ forall path, path ∈ range <-> path ∈ range'.
Proof.
  intros H. exists range. by rewrite <- expandSelection_comm.
Qed.

Lemma expandSelection_symmetric_witness :
  exists range',
    expandSelection exampleDoc exampleState [KStr "arr"; KNum 2] [KStr "arr"; KNum 0]
    = Return range'
    /\ forall path,
         path ∈ [[KStr "arr"; KNum 0]; [KStr "arr"; KNum 1]; [KStr "arr"; KNum 2]]
         <-> path ∈ range'.
Proof.
  apply (expandSelection_symmetric exampleDoc exampleState
           [KStr "arr"; KNum 0] [KStr "arr"; KNum 2]).
  reflexivity.
Defined.

(** ** Down, then Up *)

(** C6, as it is written, fails: the value selection of [arr] that the
    constructor builds carries the edit flag [false]; Down and then Up
    from it, neither extending, give the value selection of [arr]
    without edit flag, which is not the selection they started from. *)
Lemma down_then_up_counterexample :
  createSelectionPlain exampleDoc exampleState (atPath VALUE [KStr "arr"])
  = Return valueArrBuilt
  /\ exists down up,
       getSelectionDown DocumentState.getNextVisiblePath exampleDoc exampleState
         valueArrBuilt false = Return (Some down)
       /\ DocumentState.getPreviousVisiblePath (Some exampleDoc) (Some exampleState)
            (focusPath down) = Some (focusPath valueArrBuilt)
       /\ getSelectionUp DocumentState.getPreviousVisiblePath exampleDoc exampleState
            down false = Return (Some up)
       /\ up <> valueArrBuilt.
Proof.
  split; [reflexivity|].
  exists valueArr0, valueArr. by repeat split.
Qed.

(** C6 (amended): from a value selection that has a next visible path
    whose previous visible path is its focus path, Down and then Up,
    neither extending, give the value selection whose anchor and focus
    are the original focus path and that has no edit flag; this is the
    original selection exactly when that has its anchor on its focus path
    and carries neither an edit flag nor paths. *)
Theorem down_then_up getNext getPrevious json state selection nextPath :
  type selection = VALUE ->
  getNext (Some json) (Some state) (focusPath selection) = Some nextPath ->
  getPrevious (Some json) (Some state) nextPath = Some (focusPath selection) ->
  exists down up,
    getSelectionDown getNext json state selection false = Return (Some down)
    /\ getSelectionUp getPrevious json state down false = Return (Some up)
    /\ up = mkSelection VALUE (focusPath selection) (focusPath selection)
                        None None None
    /\ (up = selection
        <-> anchorPath selection = focusPath selection
            /\ edit selection = None
            /\ paths selection = None
            /\ pathsMap selection = None).
Proof.
  intros Ht Hn Hp.
  exists (mkSelection VALUE nextPath nextPath None None None),
         (mkSelection VALUE (focusPath selection) (focusPath selection) None None None).
  split; [|split; [|split; [done|]]].
  - unfold getSelectionDown. by rewrite Hn, Ht.
  - unfold getSelectionUp. simpl. by rewrite Hp.
  - destruct selection as [t a f e ps pm]; simpl in *. subst t. split.
    + by intros [= <- <- <- <-].
    + by intros (-> & -> & -> & ->).
Qed.

(** In [{"arr":[2,3,1],"name":"x"}]: from the value selection of [arr]
    without edit flag, Down and then Up give that selection again. *)
Lemma down_then_up_witness :
  exists down up,
    getSelectionDown DocumentState.getNextVisiblePath exampleDoc exampleState
      valueArr false = Return (Some down)
    /\ getSelectionUp DocumentState.getPreviousVisiblePath exampleDoc exampleState
         down false = Return (Some up)
    /\ up = valueArr
    /\ (up = valueArr
        <-> anchorPath valueArr = focusPath valueArr
            /\ edit valueArr = None
            /\ paths valueArr = None
            /\ pathsMap valueArr = None).
Proof.
  apply (down_then_up DocumentState.getNextVisiblePath
           DocumentState.getPreviousVisiblePath exampleDoc exampleState valueArr
           [KStr "arr"; KNum 0]); reflexivity.
Defined.

(** ** Reconciliation *)

(** C7: a single replace or move gives the value selection of the parsed
    target path of the operation, edit mode off. *)
Theorem single_replace_or_move json operation :
  op operation = "replace" \/ op operation = "move" ->
  createSelectionFromOperations json [operation]
  = Some (mkSelection VALUE
            (parseJSONPointerWithArrayIndices json (path operation))
            (parseJSONPointerWithArrayIndices json (path operation))
            (Some false) None None).
Proof.
  intros H. unfold createSelectionFromOperations, replacedValue.
  assert (String.eqb (op operation) "replace" || String.eqb (op operation) "move"
          = true) as ->; [|done].
  destruct H as [-> | ->]; reflexivity.
Qed.

(** A single replace at the pointer [/arr/1] gives the value selection of
    [["arr", 1]], edit mode off. *)
Lemma single_replace_or_move_witness :
  createSelectionFromOperations exampleDoc [replaceArr1]
  = Some (mkSelection VALUE [KStr "arr"; KNum 1] [KStr "arr"; KNum 1]
            (Some false) None None).
Proof.
  apply (single_replace_or_move exampleDoc replaceArr1). left. reflexivity.
Defined.

Lemma selectable_collected operation :
  selectable operation = true <-> collected operation.
Proof.
  unfold selectable, collected.
  rewrite !andb_true_iff, orb_true_iff, !negb_true_iff.
  rewrite !String.eqb_neq, bool_decide_eq_false.
  destruct (decide (op operation = "move")); tauto.
Qed.

Lemma filter_selectable operations :
  List.filter selectable operations = filter collected operations.
Proof.
  induction operations as [|o operations IH]; [done|]. simpl.
  rewrite filter_cons. destruct (selectable o) eqn:Hs.
  - rewrite decide_True by (by apply selectable_collected). by rewrite IH.
  - rewrite decide_False; [done|].
    intros Hc. apply selectable_collected in Hc. congruence.
Qed.

Lemma forallb_Forall {A} (f : A -> bool) (P : A -> Prop) (l : list A) :
  (forall x, f x = true <-> P x) -> forallb f l = true -> Forall P l.
Proof.
  intros Hf H. apply Forall_forall. intros x Hx.
  apply Hf. rewrite forallb_forall in H. apply H. by apply list_elem_of_In.
Qed.

(** C8: where neither the rule of the single replace or move nor the
    rule of the renamed key applies, the target paths of the operations
    that are no test, no remove and no move onto the own path are
    collected; there is no selection when there are none, and else the
    multi selection whose paths are the collected paths in the order of
    the operations, anchored at the first and with the focus on the
    last. *)
Theorem multi_from_operations json operations :
  ~ isSingleReplaceOrMove operations ->
  ~ isRename operations ->
  (collectedPaths json operations = [] ->
   createSelectionFromOperations json operations = None)
  /\ (collectedPaths json operations <> [] ->
      exists anchor focus,
        first (collectedPaths json operations) = Some anchor
        /\ last (collectedPaths json operations) = Some focus
        /\ createSelectionFromOperations json operations
           = Some (mkSelection MULTI anchor focus None
                     (Some (collectedPaths json operations))
                     (Some (createPathsMap (collectedPaths json operations))))).
Proof.
  intros Hsingle Hrename. unfold createSelectionFromOperations.
  assert (replacedValue json operations = None) as ->.
  { unfold replacedValue. destruct operations as [|o [|? ?]]; try done.
    destruct (_ || _) eqn:Hc; [|done].
    exfalso. apply Hsingle. exists o. split; [done|].
    apply orb_true_iff in Hc as [Hc|Hc]; apply String.eqb_eq in Hc; auto. }
  assert (renamedKey json operations = None) as ->.
  { unfold renamedKey. destruct operations as [|firstOp otherOps]; [done|].
    destruct (_ && _) eqn:Hc; [|done].
    exfalso. apply Hrename. exists firstOp, otherOps.
    apply andb_true_iff in Hc as [Hc Hothers].
    apply andb_true_iff in Hc as [Hmoves Hfirst].
    split; [done|]. split; [|split].
    - eapply forallb_Forall; [|exact Hmoves]. intros x. apply String.eqb_eq.
    - apply negb_true_iff in Hfirst. by apply bool_decide_eq_false in Hfirst.
    - eapply forallb_Forall; [|exact Hothers]. intros x. apply bool_decide_eq_true. }
  rewrite filter_selectable. fold (collectedPaths json operations).
  destruct (collectedPaths json operations) as [|p ps] eqn:Hpaths.
  - split; [done|]. by intros [].
  - split; [done|]. intros _.
    destruct (last (p :: ps)) as [f|] eqn:Hlast.
    + exists p, f. by simpl.
    + by apply last_None in Hlast.
Qed.

(** Two adds around a remove give the multi selection of the two added
    paths, which are no neighbours. *)
Lemma multi_from_operations_witness :
  exists anchor focus,
    first (collectedPaths exampleDoc addedAndRemoved) = Some anchor
    /\ last (collectedPaths exampleDoc addedAndRemoved) = Some focus
    /\ createSelectionFromOperations exampleDoc addedAndRemoved
       = Some (mkSelection MULTI anchor focus None
                 (Some (collectedPaths exampleDoc addedAndRemoved))
                 (Some (createPathsMap (collectedPaths exampleDoc addedAndRemoved)))).
Proof.
  apply (multi_from_operations exampleDoc addedAndRemoved).
  - intros (o & H & _). discriminate.
  - intros (firstOp & otherOps & [= <- <-] & Hmoves & _).
    apply Forall_cons in Hmoves as [H _]. discriminate.
  - by vm_compute.
Defined.

(** ** Partial JSON *)

(** C9: a multi selection that is not of the root and whose parent is an
    array serializes, when it has one path, to the JSON of that element
    and nothing behind it, and when it has several, to the JSON of every
    element with a comma behind it, in the order of the paths, joined by
    newlines. *)
Theorem partial_json_under_array json selection indentation range :
  type selection = MULTI ->
  focusPath selection <> [] ->
  isArray (getIn json (initial (focusPath selection))) = true ->
  paths selection = Some range ->
  (forall path,
     range = [path] ->
     selectionToPartialJson json selection indentation
     = Return (JSON_stringify (getIn json path) indentation))
  /\ ((1 < length range)%nat ->
      selectionToPartialJson json selection indentation
      = Return (Str (String.concat newline
                       (map (fun path =>
                               toString (JSON_stringify (getIn json path) indentation)
                               +:+ ",")
                            range)))).
Proof.
  intros Ht Hf Ha Hr. unfold selectionToPartialJson, getParentPath.
  rewrite Ht, Ha, Hr.
  assert (isEmpty (focusPath selection) = false) as ->
    by (by destruct (focusPath selection)).
  split.
  - by intros path ->.
  - intros Hlen. rewrite bool_decide_eq_false_2; [done|lia].
Qed.

(** Over [[2,3,1]], with two spaces: the first two elements give the two
    lines [2,] and [3,], and the second element alone gives [3]. *)
Lemma partial_json_under_array_witness :
  selectionToPartialJson exampleDoc multiArr01 2
  = Return (Str ("2," +:+ newline +:+ "3,"))
  /\ selectionToPartialJson exampleDoc (multiAt [KStr "arr"; KNum 1]) 2
     = Return (Str "3").
Proof.
  split.
  - destruct (partial_json_under_array exampleDoc multiArr01 2
                [[KStr "arr"; KNum 0]; [KStr "arr"; KNum 1]])
      as [_ Hseveral]; [reflexivity | discriminate | reflexivity | reflexivity |].
    apply Hseveral. simpl. lia.
  - destruct (partial_json_under_array exampleDoc (multiAt [KStr "arr"; KNum 1]) 2
                [[KStr "arr"; KNum 1]])
      as [Hone _]; [reflexivity | discriminate | reflexivity | reflexivity |].
    apply (Hone [KStr "arr"; KNum 1]). reflexivity.
Defined.

(** C10: a selection after or inside a node serializes to null. *)
Theorem partial_json_of_insertion_point json selection indentation :
  type selection = AFTER \/ type selection = INSIDE ->
  selectionToPartialJson json selection indentation = Return Null.
Proof.
  intros [H|H]; unfold selectionToPartialJson; by rewrite H.
Qed.

Lemma partial_json_of_insertion_point_witness :
  selectionToPartialJson exampleDoc afterArr 2 = Return Null
  /\ selectionToPartialJson exampleDoc insideArr 2 = Return Null.
Proof.
  split.
  - apply partial_json_of_insertion_point. left. reflexivity.
  - apply partial_json_of_insertion_point. right. reflexivity.
Defined.

(** ** The provider *)

(** The visible paths below a path go on behind it. *)
Lemma visiblePathsFrom_below fuel json state path visible :
  visible ∈ DocumentState.visiblePathsFrom fuel json state path ->
  exists suffix, visible = path ++ suffix.
Proof.
  revert json state path. induction fuel as [|fuel IH]; intros json state path; simpl.
  - intros ->%list_elem_of_singleton. exists []. by rewrite app_nil_r.
  - intros [->|Hin]%elem_of_cons; [exists []; by rewrite app_nil_r|].
    apply list_elem_of_In, in_flat_map in Hin as (child & _ & Hin).
    apply list_elem_of_In, IH in Hin as (suffix & ->).
    exists (fst child :: suffix). by rewrite <- app_assoc.
Qed.

(** The root is the first visible path, and no other. *)
Lemma getVisiblePaths_root json state :
  exists rest,
    DocumentState.getVisiblePaths json state = [] :: rest
    /\ Forall (fun visible => visible <> []) rest.
Proof.
  unfold DocumentState.getVisiblePaths.
  destruct (DocumentState.fuelFor json) as [|fuel]; simpl.
  - by exists [].
  - eexists. split; [done|]. apply Forall_forall. intros visible Hin.
    apply list_elem_of_In, in_flat_map in Hin as (child & _ & Hin).
    apply list_elem_of_In, visiblePathsFrom_below in Hin as (suffix & ->).
    by destruct suffix.
Qed.

(** The provider never gives the root as the path next to another: Down
    from a key selection gives no key selection of the root with it. *)
Lemma getNextVisiblePath_not_root json state path :
  DocumentState.getNextVisiblePath json state path <> Some [].
Proof.
  unfold DocumentState.getNextVisiblePath.
  destruct (getVisiblePaths_root json state) as (rest & -> & Hrest).
  destruct (DocumentState.indexOfPath _ _) as [index|]; [|done].
  rewrite Nat.add_1_r. simpl. intros Hin.
  apply list_elem_of_lookup_2 in Hin.
  rewrite Forall_forall in Hrest. by apply (Hrest [] Hin).
Qed.

(** ** Paths and their prefixes *)

Lemma keysMatch_prefix path parentPath :
  keysMatch path parentPath = true <-> exists suffix, path = parentPath ++ suffix.
Proof.
  revert path. induction parentPath as [|k parentPath IH]; intros path; simpl.
  - split; [intros _; by exists path|by destruct path].
  - destruct path as [|k' path].
    + split; [done|]. by intros (suffix & ?).
    + unfold strictEq. case_bool_decide as Hk.
      * subst k'. rewrite IH. split; intros (suffix & H); exists suffix.
        -- by rewrite H.
        -- by inversion H.
      * split; [done|]. intros (suffix & H). inversion H. congruence.
Qed.

(** A path starts with a parent path exactly when it is the parent path
    with some keys behind it. *)
Lemma pathStartsWith_app path parentPath :
  pathStartsWith path parentPath = true
  <-> exists suffix, path = parentPath ++ suffix.
Proof.
  unfold pathStartsWith. case_bool_decide as Hlen.
  - split; [done|]. intros (suffix & ->). rewrite length_app in Hlen. lia.
  - apply keysMatch_prefix.
Qed.

Lemma pathStartsWith_refl path : pathStartsWith path path = true.
Proof. apply pathStartsWith_app. exists []. by rewrite app_nil_r. Qed.

Lemma pathStartsWith_initial path : pathStartsWith path (initial path) = true.
Proof.
  apply pathStartsWith_app. destruct path as [|k path] using rev_ind.
  - by exists [].
  - exists [k]. unfold initial. by rewrite removelast_last.
Qed.

(** X1: [pathStartsWith] tests for a prefix, keys compared without
    conversion: it holds exactly when the path is the parent path with
    keys behind it.  So every path starts with itself and with the empty
    path, two paths that start with each other are one path, and a path
    starts with whatever its parent path starts with. *)
Theorem pathStartsWith_prefix_order path parentPath :
  (pathStartsWith path parentPath = true
   <-> exists suffix, path = parentPath ++ suffix)
  /\ pathStartsWith path path = true
  /\ pathStartsWith path [] = true
  /\ (pathStartsWith path parentPath = true ->
      pathStartsWith parentPath path = true -> path = parentPath)
  /\ (forall ancestor,
        pathStartsWith path parentPath = true ->
        pathStartsWith parentPath ancestor = true ->
        pathStartsWith path ancestor = true).
Proof.
  split; [apply pathStartsWith_app|]. split; [apply pathStartsWith_refl|].
  split; [apply pathStartsWith_app; by exists path|]. split.
  - intros (s1 & H1)%pathStartsWith_app (s2 & H2)%pathStartsWith_app.
    rewrite H2 in H1 at 1. rewrite <- app_assoc in H1.
    rewrite <- (app_nil_r path) in H1 at 1. apply app_inv_head in H1.
    symmetry in H1. apply app_eq_nil in H1 as [-> _]. by rewrite app_nil_r in H2.
  - intros ancestor (s1 & ->)%pathStartsWith_app (s2 & ->)%pathStartsWith_app.
    apply pathStartsWith_app. exists (s2 ++ s1). by rewrite app_assoc.
Qed.

Lemma pathStartsWith_prefix_order_witness :
  pathStartsWith [KStr "arr"; KNum 1; KStr "a"] [KStr "arr"] = true
  /\ pathStartsWith [KStr "arr"; KNum 1] [KStr "arr"; KStr "1"] = false.
Proof.
  split; [|reflexivity].
  destruct (pathStartsWith_prefix_order [KStr "arr"; KNum 1; KStr "a"]
              [KStr "arr"; KNum 1]) as (_ & _ & _ & _ & Htrans).
  apply Htrans; reflexivity.
Defined.

(** What is behind the shared path differs in its first key. *)
Lemma findSharedPath_split path1 path2 :
  exists rest1 rest2,
    path1 = findSharedPath path1 path2 ++ rest1
    /\ path2 = findSharedPath path1 path2 ++ rest2
    /\ (forall k1 k2, head rest1 = Some k1 -> head rest2 = Some k2 -> k1 <> k2).
Proof.
  revert path2. induction path1 as [|k1 path1 IH]; intros path2; simpl.
  - exists [], path2. by repeat split.
  - destruct path2 as [|k2 path2].
    + exists (k1 :: path1), []. by repeat split.
    + unfold strictEq. case_bool_decide as Hk.
      * subst k2. destruct (IH path2) as (rest1 & rest2 & H1 & H2 & Hd).
        exists rest1, rest2. simpl. by rewrite <- H1, <- H2.
      * exists (k1 :: path1), (k2 :: path2). repeat split.
        intros ? ? [= <-] [= <-]. done.
Qed.

(** X2: the shared path of two paths is their longest common prefix:
    both start with it, and it starts with every path both start with. *)
Theorem findSharedPath_longest path1 path2 :
  pathStartsWith path1 (findSharedPath path1 path2) = true
  /\ pathStartsWith path2 (findSharedPath path1 path2) = true
  /\ forall prefix,
       pathStartsWith path1 prefix = true ->
       pathStartsWith path2 prefix = true ->
       pathStartsWith (findSharedPath path1 path2) prefix = true.
Proof.
  destruct (findSharedPath_split path1 path2) as (rest1 & rest2 & H1 & H2 & Hd).
  split; [|split].
  - apply pathStartsWith_app. eauto.
  - apply pathStartsWith_app. eauto.
  - intros prefix Hp1 Hp2. apply pathStartsWith_app.
    apply pathStartsWith_app in Hp1 as (s1 & Hs1).
    apply pathStartsWith_app in Hp2 as (s2 & Hs2).
    revert Hs1 Hs2 H1 H2. generalize (findSharedPath path1 path2) as shared.
    intros shared. revert path1 path2 prefix.
    induction shared as [|k shared IH]; intros path1 path2 prefix Hs1 Hs2 H1 H2.
    + simpl in H1, H2. subst rest1 rest2.
      destruct prefix as [|kp prefix]; [by exists []|].
      exfalso. rewrite Hs1 in Hd. rewrite Hs2 in Hd. by apply (Hd kp kp).
    + destruct prefix as [|kp prefix]; [by eexists|].
      rewrite H1 in Hs1. rewrite H2 in Hs2. simpl in Hs1, Hs2.
      injection Hs1 as Hk Hrest1. injection Hs2 as _ Hrest2.
      destruct (IH (shared ++ rest1) (shared ++ rest2) prefix Hrest1 Hrest2
                  eq_refl eq_refl) as (suffix & ->).
      exists suffix. by rewrite Hk.
Qed.

Lemma findSharedPath_longest_witness :
  pathStartsWith (findSharedPath [KStr "arr"; KNum 1; KStr "a"] [KStr "arr"; KNum 1; KStr "b"])
    [KStr "arr"] = true.
Proof.
  apply (findSharedPath_longest [KStr "arr"; KNum 1; KStr "a"]
           [KStr "arr"; KNum 1; KStr "b"]); reflexivity.
Defined.

Lemma isSelectionInsidePath_app selection path :
  isSelectionInsidePath selection path = true
  <-> exists suffix,
        focusPath selection = path ++ suffix
        /\ (suffix <> [] \/ type selection = INSIDE).
Proof.
  unfold isSelectionInsidePath. rewrite andb_true_iff, orb_true_iff.
  rewrite pathStartsWith_app, !bool_decide_eq_true. split.
  - intros [(suffix & Hs) Hcase]. exists suffix. split; [done|].
    destruct Hcase as [Hlen|Hi]; [left|by right].
    intros ->. rewrite Hs, app_nil_r in Hlen. lia.
  - intros (suffix & Hs & Hcase). split; [eauto|].
    destruct Hcase as [Hne|Hi]; [left|by right].
    rewrite Hs, length_app. destruct suffix; [done|]. simpl. lia.
Qed.

(** X3: a selection is inside a path exactly when its focus path is that
    path with keys behind it: at least one key, or none for a selection
    of type inside.  So a selection is inside its parent path, but for
    the selection of the root that is not of type inside, which has no
    parent. *)
Theorem isSelectionInsidePath_iff selection path :
  (isSelectionInsidePath selection path = true
   <-> exists suffix,
         focusPath selection = path ++ suffix
         /\ (suffix <> [] \/ type selection = INSIDE))
  /\ (isSelectionInsidePath selection (getParentPath selection) = true
      <-> focusPath selection <> [] \/ type selection = INSIDE).
Proof.
  split; [apply isSelectionInsidePath_app|].
  rewrite isSelectionInsidePath_app. unfold getParentPath. split.
  - intros (suffix & Hs & [Hne|Hi]); [|by right].
    left. intros Hf. rewrite Hf in Hs.
    destruct (type selection); simpl in Hs; congruence.
  - intros Hcase. destruct (decide (type selection = INSIDE)) as [Hi|Hi].
    + rewrite Hi. exists []. split; [by rewrite app_nil_r|by right].
    + destruct Hcase as [Hne|]; [|done].
      destruct (focusPath selection) as [|k parent _] using rev_ind; [done|].
      exists [k]. split; [|by left].
      unfold initial. rewrite removelast_last. by destruct (type selection).
Qed.

(** The value of [arr[0]] is inside [arr], and not inside its own
    path. *)
Lemma isSelectionInsidePath_iff_witness :
  isSelectionInsidePath valueArr0 (getParentPath valueArr0) = true
  /\ isSelectionInsidePath valueArr0 [KStr "arr"; KNum 0] = false.
Proof.
  split; [|reflexivity].
  apply (isSelectionInsidePath_iff valueArr0 []). left. discriminate.
Defined.

(** ** Edit mode and the root path *)

(** X4: taking a selection out of edit mode gives a selection that is not
    in edit mode and has the same type, paths and map; doing it again
    changes nothing, and null stays null. *)
Theorem removeEditMode_clears selection :
  removeEditModeFromSelection (removeEditModeFromSelection selection)
  = removeEditModeFromSelection selection
  /\ (selection = None <-> removeEditModeFromSelection selection = None)
  /\ forall before, selection = Some before ->
       exists after,
         removeEditModeFromSelection selection = Some after
         /\ edit after <> Some true
         /\ (edit before <> Some true -> after = before)
         /\ type after = type before
         /\ anchorPath after = anchorPath before
         /\ focusPath after = focusPath before
         /\ paths after = paths before
         /\ pathsMap after = pathsMap before.
Proof.
  destruct selection as [s|]; simpl; [|by repeat split].
  case_bool_decide as He; simpl.
  - split; [done|]. split; [done|]. intros before [= <-]. eexists.
    split; [done|]. by repeat split.
  - rewrite bool_decide_eq_false_2 by done.
    split; [done|]. split; [done|]. intros before [= <-]. exists s.
    by repeat split.
Qed.

Lemma removeEditMode_clears_witness :
  exists after,
    removeEditModeFromSelection
      (Some (mkSelection VALUE [KStr "name"] [KStr "name"] (Some true) None None))
    = Some after
    /\ edit after <> Some true
    /\ focusPath after = [KStr "name"].
Proof.
  destruct (removeEditMode_clears
              (Some (mkSelection VALUE [KStr "name"] [KStr "name"] (Some true) None None)))
    as (_ & _ & H).
  destruct (H _ eq_refl) as (after & Ha & He & _ & _ & _ & Hf & _).
  exists after. by repeat split.
Defined.

(** X5: the root path of a selection is the focus path for a value, the
    parent of the focus path for a multi selection of several paths, and
    the root of the document for every other selection, a multi selection
    of one path or none among them; it is always a prefix of the focus
    path.  Only a multi selection without paths makes [findRootPath]
    throw. *)
Theorem findRootPath_prefix selection :
  (type selection = MULTI /\ paths selection = None
   -> findRootPath selection = Throw (pathsUndefined "length"))
  /\ (type selection = VALUE
      -> findRootPath selection = Return (focusPath selection))
  /\ (forall range,
        type selection = MULTI -> paths selection = Some range ->
        (1 < length range)%nat ->
        findRootPath selection = Return (initial (focusPath selection)))
  /\ (forall range,
        type selection = MULTI -> paths selection = Some range ->
        (length range <= 1)%nat ->
        findRootPath selection = Return [])
  /\ (type selection <> MULTI -> type selection <> VALUE
      -> findRootPath selection = Return [])
  /\ (forall rootPath,
        findRootPath selection = Return rootPath ->
        pathStartsWith (focusPath selection) rootPath = true).
Proof.
  unfold findRootPath. repeat split.
  - by intros [-> ->].
  - by intros ->.
  - intros range -> -> Hlen. by rewrite bool_decide_eq_true_2.
  - intros range -> -> Hlen. rewrite bool_decide_eq_false_2; [done|lia].
  - intros Hm Hv. by destruct (type selection).
  - intros rootPath. destruct (type selection);
      try (intros [= <-]; apply pathStartsWith_app; by eexists).
    + intros [= <-]. apply pathStartsWith_refl.
    + destruct (paths selection) as [range|]; [|discriminate].
      case_bool_decide; intros [= <-].
      * apply pathStartsWith_initial.
      * apply pathStartsWith_app. by eexists.
Qed.

(** The root path of the multi selection of [arr[0]] and [arr[1]] is
    [arr]; that of the multi selection of [arr[1]] alone is the root. *)
Lemma findRootPath_prefix_witness :
  findRootPath multiArr01 = Return [KStr "arr"]
  /\ pathStartsWith (focusPath multiArr01) [KStr "arr"] = true
  /\ findRootPath (multiAt [KStr "arr"; KNum 1]) = Return [].
Proof.
  destruct (findRootPath_prefix multiArr01) as (_ & _ & Hseveral & _ & _ & Hprefix).
  destruct (findRootPath_prefix (multiAt [KStr "arr"; KNum 1]))
    as (_ & _ & _ & Hone & _).
  assert (H : findRootPath multiArr01 = Return [KStr "arr"]).
  { apply (Hseveral [[KStr "arr"; KNum 0]; [KStr "arr"; KNum 1]]);
      [reflexivity | reflexivity | simpl; lia]. }
  split; [exact H|]. split; [exact (Hprefix _ H)|].
  apply (Hone [[KStr "arr"; KNum 1]]); [reflexivity | reflexivity | simpl; lia].
Defined.

(** ** The initial selection *)

Lemma firstDeepest_None visiblePaths :
  firstDeepest visiblePaths = None <-> visiblePaths = [].
Proof.
  induction visiblePaths as [|path rest IH]; simpl; [done|].
  destruct rest as [|nextPath rest]; [done|].
  case_bool_decide; [|done]. rewrite IH. done.
Qed.

(** The path the loop stops at ends the first run of visible paths that
    grow longer from one to the next. *)
Lemma firstDeepest_descent visiblePaths path :
  firstDeepest visiblePaths = Some path ->
  exists before after,
    visiblePaths = before ++ path :: after
    /\ (forall i shorter longer,
          (before ++ [path]) !! i = Some shorter ->
          (before ++ [path]) !! S i = Some longer ->
          (length shorter < length longer)%nat)
    /\ (forall nextPath, head after = Some nextPath ->
          (length nextPath <= length path)%nat).
Proof.
  revert path. induction visiblePaths as [|p rest IH]; intros path; simpl; [done|].
  destruct rest as [|nextPath rest].
  - intros [= ->]. exists [], []. repeat split; [|done].
    intros [|i] ? ?; simpl; done.
  - case_bool_decide as Hlen.
    + intros H. destruct (IH _ H) as (before & after & Hrest & Hgrow & Hstop).
      exists (p :: before), after. split; [by rewrite Hrest|]. split; [|done].
      intros [|i] shorter longer; simpl.
      * intros [= <-] Hl.
        assert ((before ++ [path]) !! 0%nat = Some nextPath) as H0.
        { destruct before as [|b before]; simpl in *; congruence. }
        congruence.
      * apply Hgrow.
    + intros [= ->]. exists [], (nextPath :: rest). repeat split.
      * intros [|i] ? ?; simpl; done.
      * intros ? [= <-]. lia.
Qed.

(** X6: the initial selection is a key selection or a value selection on
    one visible path, and a key selection only of a path that is not the
    root and whose parent is no array; without a visible path
    [getInitialSelection] throws. *)
Theorem getInitialSelection_key_or_value getVisiblePaths json state :
  (getVisiblePaths json state = []
   -> getInitialSelection getVisiblePaths json state
      = Throw (pathsUndefined "length"))
  /\ (getVisiblePaths json state <> []
      -> exists path,
           path ∈ getVisiblePaths json state
           /\ ((path <> [] /\ isArray (getIn json (initial path)) = false
                /\ getInitialSelection getVisiblePaths json state
                   = Return (mkSelection KEY path path None None None))
               \/ ((path = [] \/ isArray (getIn json (initial path)) = true)
                   /\ getInitialSelection getVisiblePaths json state
                      = Return (mkSelection VALUE path path None None None)))).
Proof.
  unfold getInitialSelection. split.
  - intros ->. done.
  - intros Hne.
    destruct (firstDeepest (getVisiblePaths json state)) as [path|] eqn:Hd.
    2:{ by apply firstDeepest_None in Hd. }
    exists path. split.
    { destruct (firstDeepest_descent _ _ Hd) as (before & after & -> & _).
      apply elem_of_app. right. apply list_elem_of_here. }
    destruct path as [|k path]; [right; by split; [left|]|].
    rewrite (bool_decide_eq_false_2 (length (k :: path) = 0%nat)) by done.
    destruct (isArray _) eqn:Ha; [right|left]; by repeat split; try right.
Qed.

(** In [{"arr":[2,3,1],"name":"x"}], all expanded, there are visible
    paths, and the initial selection is on one of them. *)
Lemma getInitialSelection_key_or_value_witness :
  exists path,
    path ∈ visiblePathsOf exampleDoc exampleState
    /\ ((path <> [] /\ isArray (getIn exampleDoc (initial path)) = false
         /\ getInitialSelection visiblePathsOf exampleDoc exampleState
            = Return (mkSelection KEY path path None None None))
        \/ ((path = [] \/ isArray (getIn exampleDoc (initial path)) = true)
            /\ getInitialSelection visiblePathsOf exampleDoc exampleState
               = Return (mkSelection VALUE path path None None None))).
Proof.
  apply (getInitialSelection_key_or_value visiblePathsOf exampleDoc exampleState).
  discriminate.
Defined.

(** X7: the path of the initial selection ends the first descent of the
    visible paths: the visible paths before it and the path itself grow
    longer from one to the next, and the visible path behind it, if there
    is one, is no longer than it. *)
Theorem getInitialSelection_first_descent getVisiblePaths json state selection :
  getInitialSelection getVisiblePaths json state = Return selection ->
  anchorPath selection = focusPath selection
  /\ exists before after,
       getVisiblePaths json state = before ++ focusPath selection :: after
       /\ (forall i shorter longer,
             (before ++ [focusPath selection]) !! i = Some shorter ->
             (before ++ [focusPath selection]) !! S i = Some longer ->
             (length shorter < length longer)%nat)
       /\ (forall nextPath, head after = Some nextPath ->
             (length nextPath <= length (focusPath selection))%nat).
Proof.
  unfold getInitialSelection.
  destruct (firstDeepest (getVisiblePaths json state)) as [path|] eqn:Hd;
    [|discriminate].
  intros H.
  assert (anchorPath selection = path /\ focusPath selection = path) as [Ha Hf].
  { destruct (_ || _); by inversion H. }
  rewrite Ha, Hf. split; [done|]. by apply firstDeepest_descent.
Qed.

(** In [{"arr":[2,3,1],"name":"x"}], all expanded, the visible paths
    descend from the root over [arr] to [arr[0]], where the initial
    selection is. *)
Lemma getInitialSelection_first_descent_witness :
  getInitialSelection visiblePathsOf exampleDoc exampleState
  = Return valueArr0
  /\ exists before after,
       visiblePathsOf exampleDoc exampleState
       = before ++ [KStr "arr"; KNum 0] :: after
       /\ (forall i shorter longer,
             (before ++ [[KStr "arr"; KNum 0]]) !! i = Some shorter ->
             (before ++ [[KStr "arr"; KNum 0]]) !! S i = Some longer ->
             (length shorter < length longer)%nat)
       /\ (forall nextPath, head after = Some nextPath ->
             (length nextPath <= 2)%nat).
Proof.
  assert (H : getInitialSelection visiblePathsOf exampleDoc exampleState
              = Return valueArr0) by reflexivity.
  split; [exact H|].
  exact (proj2 (getInitialSelection_first_descent visiblePathsOf exampleDoc
                  exampleState valueArr0 H)).
Defined.

(** ** What the constructor builds *)

(** X8: for an anchor and a focus whose range expansion gives a range
    that is not empty, the constructor returns a multi selection that
    carries this range, with its map and without edit flag.  Its anchor
    is the first and its focus the last path of the range where the focus
    asked for is the last path or the anchor asked for the first, and the
    other way round where neither is. *)
Theorem createSelectionPlain_multi json state anchor focus range :
  expandSelection json state anchor focus = Return range ->
  range <> [] ->
  exists selection,
    createSelectionPlain json state (between MULTI anchor focus) = Return selection
    /\ type selection = MULTI
    /\ paths selection = Some range
    /\ pathsMap selection = Some (createPathsMap range)
    /\ edit selection = None
    /\ (last range = Some focus \/ first range = Some anchor ->
        first range = Some (anchorPath selection)
        /\ last range = Some (focusPath selection))
    /\ (last range <> Some focus -> first range <> Some anchor ->
        last range = Some (anchorPath selection)
        /\ first range = Some (focusPath selection)).
Proof.
  intros He Hne. unfold createSelectionPlain; simpl. rewrite He; simpl.
  unfold multiOver.
  destruct (first range) as [a|] eqn:Hfirst; [|by destruct range].
  destruct (last range) as [f|] eqn:Hlast; [|by apply last_None in Hlast].
  destruct (bool_decide (Some focus = Some f) || bool_decide (Some anchor = Some a))
    eqn:Hends.
  - eexists. split; [done|]. simpl. do 4 (split; [done|]). split; [done|].
    intros Hf Ha. apply orb_true_iff in Hends as [H|H];
      apply bool_decide_eq_true_1 in H; congruence.
  - eexists. split; [done|]. simpl. do 4 (split; [done|]). split; [|done].
    apply orb_false_elim in Hends as [H1 H2].
    apply bool_decide_eq_false_1 in H1, H2. intros [Hf|Ha]; congruence.
Qed.

(** From [name] to [arr[1]] in [{"arr":[2,3,1],"name":"x"}] the range is
    [arr], [name]; neither end is as asked for, and the selection has its
    anchor on [name], the last path. *)
Lemma createSelectionPlain_multi_witness :
  exists selection,
    createSelectionPlain exampleDoc exampleState
      (between MULTI [KStr "name"] [KStr "arr"; KNum 1]) = Return selection
    /\ type selection = MULTI
    /\ paths selection = Some [[KStr "arr"]; [KStr "name"]]
    /\ pathsMap selection = Some (createPathsMap [[KStr "arr"]; [KStr "name"]])
    /\ edit selection = None
    /\ (Some [KStr "name"] = Some [KStr "arr"; KNum 1]
        \/ Some [KStr "arr"] = Some [KStr "name"] ->
        Some [KStr "arr"] = Some (anchorPath selection)
        /\ Some [KStr "name"] = Some (focusPath selection))
    /\ (Some [KStr "name"] <> Some [KStr "arr"; KNum 1] ->
        Some [KStr "arr"] <> Some [KStr "name"] ->
        Some [KStr "name"] = Some (anchorPath selection)
        /\ Some [KStr "arr"] = Some (focusPath selection)).
Proof.
  apply (createSelectionPlain_multi exampleDoc exampleState
           [KStr "name"] [KStr "arr"; KNum 1] [[KStr "arr"]; [KStr "name"]]).
  - reflexivity.
  - discriminate.
Defined.

(** X9: the constructor throws the type error for an unknown type of
    selection exactly for a schema whose type is none of key, value,
    after and inside and that lacks the anchor path or the focus path. *)
Theorem createSelectionPlain_unknown json state schema :
  createSelectionPlain json state schema = Throw unknownTypeOfSelection
  <-> (schemaType schema = None \/ schemaType schema = Some MULTI)
      /\ (schemaAnchorPath schema = None \/ schemaFocusPath schema = None).
Proof.
  unfold createSelectionPlain, single.
  assert (Hrange : forall a f,
            (let! range := expandSelection json state a f in multiOver a f range)
            <> Throw unknownTypeOfSelection).
  { intros a f. unfold expandSelection, multiOver.
    repeat case_match; simpl; repeat case_match; discriminate. }
  destruct (schemaType schema) as [[]|].
  1-4: split; [intros H; repeat case_match; discriminate
              | intros [[H|H] _]; discriminate].
  - destruct (schemaAnchorPath schema) as [a|], (schemaFocusPath schema) as [f|];
      try (split; [auto | done]).
    split; [by intros H%Hrange | intros [_ [|]]; discriminate].
  - destruct (schemaAnchorPath schema) as [a|], (schemaFocusPath schema) as [f|];
      try (split; [auto | done]).
    split; [by intros H%Hrange | intros [_ [|]]; discriminate].
Qed.

(** A schema with only a focus path is of an unknown type. *)
Lemma createSelectionPlain_unknown_witness :
  createSelectionPlain exampleDoc exampleState
    (mkSchema None None (Some [KStr "arr"]) None false false false)
  = Throw unknownTypeOfSelection.
Proof.
  apply (createSelectionPlain_unknown exampleDoc exampleState
           (mkSchema None None (Some [KStr "arr"]) None false false false)).
  split; left; reflexivity.
Defined.

(** ** Ranges *)

(** X10: the paths of an expanded range are siblings: they have one
    parent path; for two paths that diverge below their shared path, the
    paths of the range are children of the shared path. *)
Theorem expandSelection_siblings json state anchorPath focusPath range :
  expandSelection json state anchorPath focusPath = Return range ->
  (exists parentPath, Forall (fun path => initial path = parentPath) range)
  /\ (diverging anchorPath focusPath ->
      Forall (fun path =>
                exists key, path = findSharedPath anchorPath focusPath ++ [key])
             range).
Proof.
  intros H.
  assert (Hshape :
    (exists path, range = [path] /\ ~ diverging anchorPath focusPath)
    \/ Forall (fun path =>
                 exists key, path = findSharedPath anchorPath focusPath ++ [key])
              range).
  { unfold expandSelection, isEqual in H. case_bool_decide as Heq.
    { left. inversion H. eexists. split; [done|]. intros Hd.
      by apply diverging_differ in Hd. }
    destruct (_ || _) eqn:Hlen.
    { left. inversion H. eexists. split; [done|]. intros [Ha Hf].
      apply orb_true_iff in Hlen as [Hl|Hl]; apply bool_decide_eq_true_1 in Hl; done. }
    right. set (sharedPath := findSharedPath anchorPath focusPath) in *.
    destruct (isObject (getIn json sharedPath)).
    - destruct (getStateKeys state sharedPath) as [keys|]; [|discriminate].
      destruct (_ && _); simpl in H.
      + inversion H. unfold objectRange. apply Forall_forall.
        intros path Hin. apply list_elem_of_fmap in Hin as (k & -> & _). eauto.
      + destruct (isArray _); [|discriminate]. inversion H.
        unfold arrayRange. repeat case_match; try (by constructor).
        apply Forall_forall. intros path Hin.
        apply list_elem_of_fmap in Hin as (k & -> & _). eauto.
    - simpl in H. destruct (isArray _); [|discriminate]. inversion H.
      unfold arrayRange. repeat case_match; try (by constructor).
      apply Forall_forall. intros path Hin.
      apply list_elem_of_fmap in Hin as (k & -> & _). eauto. }
  split.
  - destruct Hshape as [(path & -> & _) | Hchildren].
    + exists (initial path). by repeat constructor.
    + exists (findSharedPath anchorPath focusPath).
      eapply Forall_impl; [exact Hchildren|]. intros path (key & ->).
      unfold initial. apply removelast_last.
  - intros Hd. destruct Hshape as [(path & -> & Hn) | Hchildren]; done.
Qed.

Lemma expandSelection_siblings_witness :
  (exists parentPath,
     Forall (fun path => initial path = parentPath)
       [[KStr "arr"; KNum 0]; [KStr "arr"; KNum 1]; [KStr "arr"; KNum 2]])
  /\ (diverging [KStr "arr"; KNum 2] [KStr "arr"; KNum 0] ->
      Forall (fun path =>
                exists key,
                  path = findSharedPath [KStr "arr"; KNum 2] [KStr "arr"; KNum 0]
                         ++ [key])
        [[KStr "arr"; KNum 0]; [KStr "arr"; KNum 1]; [KStr "arr"; KNum 2]]).
Proof.
  apply (expandSelection_siblings exampleDoc exampleState
           [KStr "arr"; KNum 2] [KStr "arr"; KNum 0]).
  reflexivity.
Defined.

(** ** The map of the paths *)

Lemma createPathsMap_from (pathsMap : gmap string bool) paths pointer :
  foldl (fun pathsMap path => <[compileJSONPointer path := true]> pathsMap)
        pathsMap paths !! pointer
  = if bool_decide (pointer ∈ map compileJSONPointer paths) then Some true
    else pathsMap !! pointer.
Proof.
  revert pathsMap. induction paths as [|path paths IH]; intros pathsMap.
  - done.
  - cbn [foldl map]. rewrite IH.
    destruct (decide (pointer ∈ map compileJSONPointer paths)) as [Hin|Hin].
    + rewrite !bool_decide_eq_true_2; [done| |done]. by apply list_elem_of_further.
    + rewrite (bool_decide_eq_false_2 _ Hin).
      destruct (decide (pointer = compileJSONPointer path)) as [->|Hne].
      * rewrite bool_decide_eq_true_2 by apply list_elem_of_here.
        by rewrite lookup_insert_eq.
      * rewrite lookup_insert_ne by done.
        rewrite bool_decide_eq_false_2; [done|].
        intros [?|?]%elem_of_cons; done.
Qed.

(** X11: the map of the paths holds [true] at the pointers of the paths,
    and nothing else: a pointer is in the map exactly when it is the
    pointer of one of the paths. *)
Theorem createPathsMap_lookup paths pointer :
  createPathsMap paths !! pointer
  = if bool_decide (pointer ∈ map compileJSONPointer paths) then Some true
    else None.
Proof.
  unfold createPathsMap. rewrite createPathsMap_from. by rewrite lookup_empty.
Qed.

(** ** Left and right *)

Lemma caretSelectionType_inj t1 t2 :
  caretSelectionType t1 = caretSelectionType t2 -> t1 = t2.
Proof. by destruct t1, t2. Qed.

Lemma atCaret_unique selection stop1 stop2 :
  atCaret selection stop1 -> atCaret selection stop2 -> stop1 = stop2.
Proof.
  destruct stop1, stop2. intros [Hp1 Ht1] [Hp2 Ht2]. simpl in *. f_equal.
  - congruence.
  - apply caretSelectionType_inj. congruence.
Qed.

Lemma atCaret_selectionAt stop : atCaret (selectionAt stop) stop.
Proof. by split. Qed.

Lemma createSelectionPlain_atCaret json state stop :
  createSelectionPlain json state
    (atPath (caretSelectionType (caretType stop)) (caretPath stop))
  = Return (selectionAt stop).
Proof. by destruct stop as [p []]. Qed.

(** The caret stop a selection stands at, found as the first of its kind,
    comes with its neighbours in the list. *)
Lemma findCaretAndSiblings_at carets json state selection before here after :
  carets json state = before ++ here :: after ->
  Forall (fun other => ~ atCaret selection other) before ->
  atCaret selection here ->
  findCaretAndSiblings carets json state selection
  = mkSiblings (Some here) (last before) (head after).
Proof.
  intros Hc Hbefore Hat. unfold findCaretAndSiblings, findIndex. rewrite Hc.
  rewrite findIndexFrom_app.
  2:{ eapply Forall_impl; [exact Hbefore|]. intros c. apply atCaret_false. }
  simpl. rewrite (atCaret_true _ _ Hat). f_equal.
  - by rewrite list_lookup_middle.
  - destruct before as [|b before _] using rev_ind; [done|].
    rewrite last_snoc, length_app. simpl.
    rewrite bool_decide_eq_true_2 by lia.
    rewrite <- app_assoc. simpl.
    replace (length before + 1 - 1)%nat with (length before) by lia.
    by rewrite list_lookup_middle.
  - rewrite length_app. simpl. destruct after as [|a after]; simpl.
    + rewrite bool_decide_eq_false_2; [done|lia].
    + rewrite bool_decide_eq_true_2 by lia.
      rewrite (lookup_app_r before) by lia.
      by replace (length before + 1 - length before)%nat with 1%nat by lia.
Qed.

Lemma NoDup_before {A} (l1 l2 : list A) (x : A) (P : A -> Prop) :
  NoDup (l1 ++ x :: l2) -> (forall y, P y -> y = x) -> Forall (fun y => ~ P y) l1.
Proof.
  intros Hnd Hp. apply Forall_forall. intros y Hin Hy. apply Hp in Hy as ->.
  apply NoDup_app in Hnd as (_ & Hnd & _). apply (Hnd x Hin), list_elem_of_here.
Qed.

(** X12: with the range extended, Left and Right do the same and do not
    look at the caret stops: null from a multi selection, and from
    another the multi selection the constructor builds from its anchor to
    its focus, which is the multi selection of its path where the two are
    one. *)
Theorem extending_sideways carets carets' json state selection :
  getSelectionLeft carets json state selection true
  = getSelectionRight carets' json state selection true
  /\ (type selection = MULTI ->
      getSelectionLeft carets json state selection true = Return None)
  /\ (type selection <> MULTI ->
      getSelectionLeft carets json state selection true
      = Some <$$> createSelectionPlain json state
          (between MULTI (anchorPath selection) (focusPath selection)))
  /\ (type selection <> MULTI ->
      anchorPath selection = focusPath selection ->
      getSelectionLeft carets json state selection true
      = Return (Some (multiAt (focusPath selection)))).
Proof.
  unfold getSelectionLeft, getSelectionRight. split; [done|].
  split; [by intros ->|]. split.
  - intros Hm. by rewrite bool_decide_eq_false_2.
  - intros Hm ->. rewrite bool_decide_eq_false_2 by done. simpl.
    by rewrite createSelectionPlain_same.
Qed.

Lemma extending_sideways_witness :
  getSelectionLeft DocumentState.getVisibleCaretPositions exampleDoc exampleState
    multiArr01 true = Return None
  /\ getSelectionLeft DocumentState.getVisibleCaretPositions exampleDoc exampleState
       keyName true = Return (Some (multiAt [KStr "name"])).
Proof.
  destruct (extending_sideways DocumentState.getVisibleCaretPositions
              DocumentState.getVisibleCaretPositions exampleDoc exampleState multiArr01)
    as (_ & Hmulti & _).
  destruct (extending_sideways DocumentState.getVisibleCaretPositions
              DocumentState.getVisibleCaretPositions exampleDoc exampleState keyName)
    as (_ & _ & _ & Hone).
  split; [by apply Hmulti | by apply Hone].
Defined.

(** X13: where no caret stop occurs twice, Left from a selection that
    stands at a stop with a stop before it gives the selection of that
    stop, and Right from there gives the selection of the first stop
    again, with the type and the path of the selection it started from;
    neither extends. *)
Theorem left_then_right carets json state selection before previousStop here after :
  carets json state = before ++ previousStop :: here :: after ->
  NoDup (carets json state) ->
  atCaret selection here ->
  getSelectionLeft carets json state selection false
  = Return (Some (selectionAt previousStop))
  /\ getSelectionRight carets json state (selectionAt previousStop) false
     = Return (Some (selectionAt here))
  /\ type (selectionAt here) = type selection
  /\ anchorPath (selectionAt here) = focusPath selection
  /\ focusPath (selectionAt here) = focusPath selection.
Proof.
  intros Hc Hnd Hat.
  assert (Hhere : findCaretAndSiblings carets json state selection
                  = mkSiblings (Some here) (Some previousStop) (head after)).
  { rewrite (findCaretAndSiblings_at carets json state selection
               (before ++ [previousStop]) here after).
    - by rewrite last_snoc.
    - by rewrite <- app_assoc.
    - rewrite Hc in Hnd.
      replace (before ++ previousStop :: here :: after)
        with ((before ++ [previousStop]) ++ here :: after) in Hnd
        by (by rewrite <- app_assoc).
      eapply NoDup_before; [exact Hnd|]. intros y Hy. by eapply atCaret_unique.
    - done. }
  assert (Hprev : findCaretAndSiblings carets json state (selectionAt previousStop)
                  = mkSiblings (Some previousStop) (last before) (Some here)).
  { rewrite (findCaretAndSiblings_at carets json state (selectionAt previousStop)
               before previousStop (here :: after)); [done|done| |].
    - rewrite Hc in Hnd. eapply NoDup_before; [exact Hnd|]. intros y Hy.
      eapply atCaret_unique; [exact Hy|]. apply atCaret_selectionAt.
    - apply atCaret_selectionAt. }
  split; [|split].
  - unfold getSelectionLeft. rewrite Hhere. simpl.
    by rewrite createSelectionPlain_atCaret.
  - unfold getSelectionRight. rewrite Hprev. simpl.
    by rewrite createSelectionPlain_atCaret.
  - destruct Hat as [Hp Ht]. by repeat split.
Qed.

(** In [{"arr":[2,3,1],"name":"x"}]: Left from the value of [name] gives
    its key, and Right from the key the value again. *)
Lemma left_then_right_witness :
  getSelectionLeft DocumentState.getVisibleCaretPositions exampleDoc exampleState
    (mkSelection VALUE [KStr "name"] [KStr "name"] None None None) false
  = Return (Some keyName)
  /\ getSelectionRight DocumentState.getVisibleCaretPositions exampleDoc exampleState
       keyName false
     = Return (Some (mkSelection VALUE [KStr "name"] [KStr "name"] (Some false) None None)).
Proof.
  destruct (left_then_right DocumentState.getVisibleCaretPositions exampleDoc
              exampleState
              (mkSelection VALUE [KStr "name"] [KStr "name"] None None None)
              (take 12 (DocumentState.getVisibleCaretPositions exampleDoc exampleState))
              (mkCaret [KStr "name"] CaretKey) (mkCaret [KStr "name"] CaretValue)
              [mkCaret [KStr "name"] CaretAfter])
    as (Hleft & Hright & _).
  - reflexivity.
  - compute_done.
  - by split.
  - split; [exact Hleft | exact Hright].
Defined.

(** X14: [findCaretAndSiblings] gives three nulls for a selection that
    stands at no caret stop, and for one that does, the first stop it
    stands at with the stop before it and the stop behind it in the list,
    null where the list ends. *)
Theorem findCaretAndSiblings_neighbours carets json state selection :
  (Forall (fun other => ~ atCaret selection other) (carets json state) ->
   findCaretAndSiblings carets json state selection = mkSiblings None None None)
  /\ (forall before here after,
        carets json state = before ++ here :: after ->
        Forall (fun other => ~ atCaret selection other) before ->
        atCaret selection here ->
        caret (findCaretAndSiblings carets json state selection) = Some here
        /\ previous (findCaretAndSiblings carets json state selection) = last before
        /\ next (findCaretAndSiblings carets json state selection) = head after).
Proof.
  split.
  - intros Hnone. unfold findCaretAndSiblings, findIndex.
    rewrite <- (app_nil_r (carets json state)), findIndexFrom_app; [done|].
    eapply Forall_impl; [exact Hnone|]. intros c. apply atCaret_false.
  - intros before here after Hc Hbefore Hat.
    by rewrite (findCaretAndSiblings_at _ _ _ _ _ _ _ Hc Hbefore Hat).
Qed.

Lemma findCaretAndSiblings_neighbours_witness :
  findCaretAndSiblings DocumentState.getVisibleCaretPositions exampleDoc exampleState
    multiArr01 = mkSiblings None None None
  /\ caret (findCaretAndSiblings DocumentState.getVisibleCaretPositions exampleDoc
              exampleState selectAll) = Some (mkCaret [] CaretValue)
  /\ previous (findCaretAndSiblings DocumentState.getVisibleCaretPositions exampleDoc
                 exampleState selectAll) = None
  /\ next (findCaretAndSiblings DocumentState.getVisibleCaretPositions exampleDoc
             exampleState selectAll) = Some (mkCaret [] CaretInside).
Proof.
  destruct (findCaretAndSiblings_neighbours DocumentState.getVisibleCaretPositions
              exampleDoc exampleState multiArr01) as [Hnone _].
  destruct (findCaretAndSiblings_neighbours DocumentState.getVisibleCaretPositions
              exampleDoc exampleState selectAll) as [_ Hfound].
  split.
  - apply Hnone. apply Forall_forall. intros c _ [_ Ht].
    by apply (caretSelectionType_not_multi (caretType c)).
  - apply (Hfound [] (mkCaret [] CaretValue)
             (tail (DocumentState.getVisibleCaretPositions exampleDoc exampleState)));
      [reflexivity | constructor | by split].
Defined.

(** X15: from a multi selection, which stands at no caret stop, Right
    that does not extend gives the value selection of the focus path,
    and Left the key selection of the focus path, or null where the
    parent of the focus path is an array. *)
Theorem sideways_from_multi carets json state selection :
  type selection = MULTI ->
  getSelectionRight carets json state selection false
  = Return (Some (mkSelection VALUE (focusPath selection) (focusPath selection)
                    (Some false) None None))
  /\ getSelectionLeft carets json state selection false
     = if isArray (getIn json (initial (focusPath selection))) then Return None
       else Return (Some (mkSelection KEY (focusPath selection) (focusPath selection)
                            (Some false) None None)).
Proof.
  intros Hm. unfold getSelectionRight, getSelectionLeft.
  rewrite findCaretAndSiblings_multi by done. cbn [caret previous next].
  rewrite Hm. split; [done|]. simpl. by destruct (isArray _).
Qed.

Lemma sideways_from_multi_witness :
  getSelectionRight DocumentState.getVisibleCaretPositions exampleDoc exampleState
    multiArr01 false
  = Return (Some (mkSelection VALUE [KStr "arr"; KNum 1] [KStr "arr"; KNum 1]
                    (Some false) None None))
  /\ getSelectionLeft DocumentState.getVisibleCaretPositions exampleDoc exampleState
       multiArr01 false = Return None.
Proof.
  apply (sideways_from_multi DocumentState.getVisibleCaretPositions exampleDoc
           exampleState multiArr01).
  reflexivity.
Defined.

(** ** Up and down, not extending *)

(** X16: where there is a previous visible path, Up that does not extend
    never throws and gives a selection of one path without edit flag: on
    the previous path a value for a value, a key or a value for a key, a
    multi selection for a multi selection, and on the focus path of the
    selection itself a multi selection for a selection after or inside a
    node.  Down does the same with the next visible path, where it also
    goes from a selection after or inside a node. *)
Theorem up_down_single_node getNext getPrevious json state selection :
  (forall previousPath,
     getPrevious (Some json) (Some state) (focusPath selection) = Some previousPath ->
     exists result,
       getSelectionUp getPrevious json state selection false = Return (Some result)
       /\ anchorPath result = focusPath result
       /\ edit result = None
       /\ focusPath result
          = match type selection with
            | AFTER | INSIDE => focusPath selection
            | _ => previousPath
            end
       /\ type result
          = match type selection with
            | KEY =>
                if isArray (getIn json (initial previousPath)) || isEmpty previousPath
                then VALUE else KEY
            | VALUE => VALUE
            | _ => MULTI
            end)
  /\ (forall nextPath,
        getNext (Some json) (Some state) (focusPath selection) = Some nextPath ->
        exists result,
          getSelectionDown getNext json state selection false = Return (Some result)
          /\ anchorPath result = focusPath result
          /\ edit result = None
          /\ focusPath result = nextPath
          /\ type result
             = match type selection with
               | KEY => if isArray (getIn json (initial nextPath)) then VALUE else KEY
               | VALUE => VALUE
               | _ => MULTI
               end).
Proof.
  split.
  - intros previousPath Hp. unfold getSelectionUp. rewrite Hp.
    destruct (type selection); rewrite ?createSelectionPlain_same;
      try (eexists; split; [reflexivity|]; by repeat split).
    destruct (_ || _); eexists; (split; [reflexivity|]); by repeat split.
  - intros nextPath Hn. unfold getSelectionDown. rewrite Hn.
    destruct (type selection); rewrite ?createSelectionPlain_same;
      try (eexists; split; [reflexivity|]; by repeat split).
    destruct (isArray _); eexists; (split; [reflexivity|]); by repeat split.
Qed.

(** In [{"arr":[2,3,1],"name":"x"}]: Up from the stop after [arr] gives a
    multi selection of [arr], Down from it one of [arr[0]]. *)
Lemma up_down_single_node_witness :
  (exists result,
     getSelectionUp DocumentState.getPreviousVisiblePath exampleDoc exampleState
       afterArr false = Return (Some result)
     /\ anchorPath result = focusPath result
     /\ edit result = None
     /\ focusPath result = [KStr "arr"]
     /\ type result = MULTI)
  /\ (exists result,
        getSelectionDown DocumentState.getNextVisiblePath exampleDoc exampleState
          afterArr false = Return (Some result)
        /\ anchorPath result = focusPath result
        /\ edit result = None
        /\ focusPath result = [KStr "arr"; KNum 0]
        /\ type result = MULTI).
Proof.
  destruct (up_down_single_node DocumentState.getNextVisiblePath
              DocumentState.getPreviousVisiblePath exampleDoc exampleState afterArr)
    as [Hup Hdown].
  split.
  - apply (Hup []). reflexivity.
  - apply (Hdown [KStr "arr"; KNum 0]). reflexivity.
Defined.

(** X17: a key selection that Up or Down returns, extending or not, is
    on a path that is not the root and whose parent is no array; for Down
    this holds with a provider that never gives the root as the path next
    to another, as the root is the first visible path. *)
Theorem up_down_key getNext getPrevious json state selection keep result :
  type result = KEY ->
  (getSelectionUp getPrevious json state selection keep = Return (Some result) ->
   focusPath result <> []
   /\ isArray (getIn json (initial (focusPath result))) = false)
  /\ ((forall j s p, getNext j s p <> Some []) ->
      getSelectionDown getNext json state selection keep = Return (Some result) ->
      focusPath result <> []
      /\ isArray (getIn json (initial (focusPath result))) = false).
Proof.
  intros Hk. split.
  - intros H. by eapply getSelectionUp_key.
  - intros Hroot H. by eapply getSelectionDown_key.
Qed.

(** In the first document with [arr] collapsed, Up from the key of [name]
    gives the key of [arr], and Down from the key of [arr] the key of
    [name]; neither path is the root, and the parent of both is the root
    object. *)
Lemma up_down_key_witness :
  getSelectionUp DocumentState.getPreviousVisiblePath exampleDoc arrCollapsed
    keyName false = Return (Some keyArr)
  /\ (focusPath keyArr <> []
      /\ isArray (getIn exampleDoc (initial (focusPath keyArr))) = false)
  /\ getSelectionDown DocumentState.getNextVisiblePath exampleDoc arrCollapsed
       keyArr false
     = Return (Some (mkSelection KEY [KStr "name"] [KStr "name"] None None None))
  /\ ([KStr "name"] <> ([] : Path)
      /\ isArray (getIn exampleDoc (initial [KStr "name"])) = false).
Proof.
  assert (Hup : getSelectionUp DocumentState.getPreviousVisiblePath exampleDoc
                  arrCollapsed keyName false = Return (Some keyArr)) by reflexivity.
  assert (Hdown : getSelectionDown DocumentState.getNextVisiblePath exampleDoc
                    arrCollapsed keyArr false
                  = Return (Some (mkSelection KEY [KStr "name"] [KStr "name"]
                                    None None None))) by reflexivity.
  split; [exact Hup|]. split.
  - exact (proj1 (up_down_key DocumentState.getNextVisiblePath
                    DocumentState.getPreviousVisiblePath exampleDoc arrCollapsed
                    keyName false keyArr eq_refl) Hup).
  - split; [exact Hdown|].
    exact (proj2 (up_down_key DocumentState.getNextVisiblePath
                    DocumentState.getPreviousVisiblePath exampleDoc arrCollapsed
                    keyArr false
                    (mkSelection KEY [KStr "name"] [KStr "name"] None None None)
                    eq_refl) getNextVisiblePath_not_root Hdown).
Defined.

(** ** The constructor and the next value *)

(** X18: asked to go on to the next value, the constructor gives for a
    value the value selection of the next visible path, without the edit
    flag it was asked for, and where there is no next visible path the
    value selection of the path itself, with the flag; for a key it gives
    the value selection of the same path, with the flag. *)
Theorem createSelection_next getNext json state path wantEdit :
  createSelection getNext json state
    (mkSchema (Some VALUE) None None (Some path) wantEdit true false)
  = Return (match getNext (Some json) (Some state) path with
            | Some nextPath => mkSelection VALUE nextPath nextPath None None None
            | None => mkSelection VALUE path path (Some wantEdit) None None
            end)
  /\ createSelection getNext json state
       (mkSchema (Some KEY) None None (Some path) wantEdit true false)
     = Return (mkSelection VALUE path path (Some wantEdit) None None).
Proof.
  split; [|done]. unfold createSelection, createSelectionPlain, getSelectionDown.
  simpl. by destruct (getNext _ _ _).
Qed.



(** ** The collapsed state *)

Lemma getInState_None path : getInState None path = None.
Proof. by induction path. Qed.

Lemma assoc_assocSet {A} (name other : string) (v : A) (l : list (string * A)) :
  assoc other (assocSet name v l)
  = if String.eqb name other then Some v else assoc other l.
Proof.
  induction l as [|[k w] l IH]; simpl.
  - by destruct (String.eqb name other).
  - destruct (String.eqb k name) eqn:Hk; simpl.
    + apply String.eqb_eq in Hk as ->. by destruct (String.eqb name other).
    + rewrite IH. destruct (String.eqb k other) eqn:Ho; [|done].
      apply String.eqb_eq in Ho as ->.
      destruct (String.eqb name other) eqn:Hn; [|done].
      apply String.eqb_eq in Hn as ->. by rewrite String.eqb_refl in Hk.
Qed.

(** Setting the expanded flag of a node touches no key order. *)
Lemma setStateExpanded_keys state path value other :
  match getInState (Some (setStateExpanded state path value)) other with
  | Some node => stateKeys node
  | None => None
  end
  = match getInState state other with
    | Some node => stateKeys node
    | None => None
    end.
Proof.
  revert state other. induction path as [|key path IH]; intros state other.
  - destruct state as [[e ks ch]|]; destruct other as [|k other]; simpl; try done;
      by rewrite getInState_None.
  - simpl. destruct state as [[e ks ch]|]; destruct other as [|k other]; simpl;
      try done.
    + rewrite assoc_assocSet.
      destruct (String.eqb (propertyName key) (propertyName k)) eqn:Hk.
      * apply String.eqb_eq in Hk. rewrite <- Hk. apply IH.
      * done.
    + destruct (String.eqb (propertyName key) (propertyName k)).
      * rewrite IH. by rewrite !getInState_None.
      * by rewrite !getInState_None.
Qed.

(** X20: the state collapsed at the focus, which Down that extends hands
    to the visibility provider, holds the key orders of the state: range
    expansion and the constructor give the same for the one as for the
    other. *)
Theorem collapsedState_same_ranges json state focus anchorPath focusPath schema :
  expandSelection json (collapsedState json state focus) anchorPath focusPath
  = expandSelection json state anchorPath focusPath
  /\ createSelectionPlain json (collapsedState json state focus) schema
     = createSelectionPlain json state schema.
Proof.
  assert (Hkeys : forall path,
            getStateKeys (collapsedState json state focus) path
            = getStateKeys state path).
  { intros path. unfold collapsedState, getStateKeys.
    destruct (isObjectOrArray _); [|done]. apply setStateExpanded_keys. }
  assert (Hexpand : forall a f,
            expandSelection json (collapsedState json state focus) a f
            = expandSelection json state a f).
  { intros a f. unfold expandSelection. by rewrite Hkeys. }
  split; [apply Hexpand|].
  unfold createSelectionPlain. destruct (schemaType schema) as [[]|]; try done;
    destruct (schemaAnchorPath schema), (schemaFocusPath schema); try done;
    by rewrite Hexpand.
Qed.

(** ** Partial JSON of the other selections *)

(** X21: a multi selection that is not of the root and whose parent is
    no array serializes to one line per path, in the order of the paths,
    joined by newlines: the key of the path as JSON, a colon and a blank,
    the JSON of the value, and a comma. *)
Theorem partial_json_under_object json selection indentation range :
  type selection = MULTI ->
  focusPath selection <> [] ->
  isArray (getIn json (initial (focusPath selection))) = false ->
  paths selection = Some range ->
  selectionToPartialJson json selection indentation
  = Return (Str (String.concat newline
                   (map (fun path =>
                           toString (stringifyKey (last path)) +:+ ": "
                           +:+ toString (JSON_stringify (getIn json path) indentation)
                           +:+ ",")
                        range))).
Proof.
  intros Ht Hf Ha Hr. unfold selectionToPartialJson, getParentPath.
  rewrite Ht, Ha, Hr. by destruct (focusPath selection).
Qed.

(** Over [{"arr":[2,3,1],"name":"x"}], with no indentation: the two
    properties give the lines ["arr": [2,3,1],] and ["name": "x",]. *)
Lemma partial_json_under_object_witness :
  selectionToPartialJson exampleDoc multiArrName 0
  = Return (Str (quote "arr" +:+ ": [2,3,1]," +:+ newline
                 +:+ quote "name" +:+ ": " +:+ quote "x" +:+ ",")).
Proof.
  apply (partial_json_under_object exampleDoc multiArrName 0
           [[KStr "arr"]; [KStr "name"]]); [reflexivity | discriminate | reflexivity..].
Defined.

(** X22: serializing does not throw on the selections that are built
    whole: every selection built from a list of operations, the
    selection the constructor builds on a path it is given, and the multi
    selection it builds where range expansion gives a range that is not
    empty, all serialize over every document. *)
Theorem partial_json_of_built json state operations document indentation :
  (forall selection,
     createSelectionFromOperations json operations = Some selection ->
     exists text, selectionToPartialJson document selection indentation = Return text)
  /\ (forall t path wantEdit next nextInside,
        t <> MULTI ->
        exists selection text,
          createSelectionPlain json state
            (mkSchema (Some t) None None (Some path) wantEdit next nextInside)
          = Return selection
          /\ selectionToPartialJson document selection indentation = Return text)
  /\ (forall anchor focus range,
        expandSelection json state anchor focus = Return range ->
        range <> [] ->
        exists selection text,
          createSelectionPlain json state (between MULTI anchor focus)
          = Return selection
          /\ selectionToPartialJson document selection indentation = Return text).
Proof.
  assert (Hmulti : forall selection range,
            type selection = MULTI -> paths selection = Some range -> range <> [] ->
            exists text,
              selectionToPartialJson document selection indentation = Return text).
  { intros selection range Ht Hr Hne. unfold selectionToPartialJson.
    rewrite Ht, Hr. destruct (isEmpty _); [by eexists|].
    destruct (isArray _); [|by eexists].
    case_bool_decide; [|by eexists].
    destruct range as [|path range]; [done|]. by eexists. }
  split; [|split].
  - intros selection H. unfold createSelectionFromOperations in H.
    destruct (replacedValue json operations) as [r|] eqn:Hr.
    { inversion H; subst. unfold replacedValue in Hr.
      repeat case_match; try discriminate. inversion Hr. by eexists. }
    destruct (renamedKey json operations) as [r|] eqn:Hk.
    { inversion H; subst. unfold renamedKey in Hk.
      repeat case_match; try discriminate. inversion Hk. by eexists. }
    destruct (isEmpty _) eqn:He; [discriminate|].
    destruct (first _) eqn:Hfirst; [|discriminate].
    destruct (last _); [|discriminate]. inversion H.
    eapply Hmulti; simpl; try done. intros Hnil. by rewrite Hnil in He.
  - intros t path wantEdit next nextInside Ht.
    destruct t; try done; unfold createSelectionPlain, single; simpl;
      try destruct next; eexists; eexists; (split; [reflexivity|]);
      reflexivity.
  - intros anchor focus range He Hne.
    unfold createSelectionPlain; simpl. rewrite He; simpl. unfold multiOver.
    destruct (first range) as [a|] eqn:Hfirst; [|by destruct range].
    destruct (last range) as [f|] eqn:Hlast; [|by apply last_None in Hlast].
    destruct (_ || _); eexists;
      (edestruct Hmulti as [text Htext]; [| | exact Hne | exists text; split; [reflexivity|exact Htext]]);
      done.
Qed.

(** The multi selection of [arr] and [name] in
    [{"arr":[2,3,1],"name":"x"}], and the selection built from two adds
    around a remove, serialize. *)
Lemma partial_json_of_built_witness :
  (exists selection text,
     createSelectionPlain exampleDoc exampleState
       (between MULTI [KStr "name"] [KStr "arr"; KNum 1]) = Return selection
     /\ selectionToPartialJson exampleDoc selection 2 = Return text)
  /\ (forall selection,
        createSelectionFromOperations exampleDoc addedAndRemoved = Some selection ->
        exists text, selectionToPartialJson exampleDoc selection 2 = Return text).
Proof.
  destruct (partial_json_of_built exampleDoc exampleState addedAndRemoved
              exampleDoc 2) as (Hops & _ & Hrange).
  split; [|exact Hops].
  apply (Hrange [KStr "name"] [KStr "arr"; KNum 1] [[KStr "arr"]; [KStr "name"]]).
  - reflexivity.
  - discriminate.
Defined.

(** ** A renamed key *)

(** X23: two or more moves, the first to another path than it comes from
    and every other onto its own path, are a renamed key: they give the
    key selection of the parsed target path of the first move, edit mode
    off. *)
Theorem renamed_key json firstOp otherOps :
  otherOps <> [] ->
  Forall (fun operation => op operation = "move") (firstOp :: otherOps) ->
  from firstOp <> Some (path firstOp) ->
  Forall (fun operation => from operation = Some (path operation)) otherOps ->
  createSelectionFromOperations json (firstOp :: otherOps)
  = Some (mkSelection KEY
            (parseJSONPointerWithArrayIndices json (path firstOp))
            (parseJSONPointerWithArrayIndices json (path firstOp))
            (Some false) None None).
Proof.
  intros Hne Hmoves Hfirst Hothers. unfold createSelectionFromOperations.
  assert (replacedValue json (firstOp :: otherOps) = None) as ->.
  { unfold replacedValue. by destruct otherOps. }
  unfold renamedKey.
  assert (forallb (fun operation => String.eqb (op operation) "move")
                  (firstOp :: otherOps) = true) as ->.
  { apply forallb_forall. intros o Ho. apply String.eqb_eq.
    rewrite Forall_forall in Hmoves. by apply Hmoves, list_elem_of_In. }
  rewrite (bool_decide_eq_false_2 _ Hfirst).
  assert (forallb (fun operation =>
                     bool_decide (from operation = Some (path operation)))
                  otherOps = true) as ->.
  { apply forallb_forall. intros o Ho. apply bool_decide_eq_true_2.
    rewrite Forall_forall in Hothers. by apply Hothers, list_elem_of_In. }
  done.
Qed.

(** The key [old] renamed to [arr] gives the key selection of [arr]. *)
Lemma renamed_key_witness :
  createSelectionFromOperations exampleDoc renameOldToArr
  = Some (mkSelection KEY [KStr "arr"] [KStr "arr"] (Some false) None None).
Proof.
  apply (renamed_key exampleDoc
           (mkOperation "move" "/arr" (Some "/old") None)
           [mkOperation "move" "/name" (Some "/name") None]).
  - discriminate.
  - repeat constructor.
  - discriminate.
  - repeat constructor.
Defined.

(** ** Down, extending, at the end *)

(** X24: Down that extends gives null exactly when there is no next
    visible path, or none behind the focus node with that node collapsed:
    from a container that ends the document it gives null although its
    children are visible paths behind it. *)
Theorem extending_down_null getNext json state selection :
  getSelectionDown getNext json state selection true = Return None
  <-> getNext (Some json) (Some state) (focusPath selection) = None
      \/ getNext (Some json) (Some (collapsedState json state (focusPath selection)))
           (focusPath selection) = None.
Proof.
  unfold getSelectionDown.
  destruct (getNext (Some json) (Some state) (focusPath selection)) as [nextPath|];
    [|split; auto].
  destruct (getNext (Some json) (Some (collapsedState _ _ _)) _) as [nextPathAfter|];
    [|split; auto].
  split; [|intros [|]; discriminate].
  destruct (type selection);
    match goal with
    | |- Some <$$> ?c = _ -> _ => destruct c; discriminate
    end.
Qed.

(** In the document [[2,3,1]], expanded, Down that extends from the value
    of the root gives null: [[0]] is the next visible path, and behind
    the root there is none. *)
Lemma extending_down_null_witness :
  DocumentState.getNextVisiblePath (Some arrayDoc) (Some arrayState) [] = Some [KNum 0]
  /\ getSelectionDown DocumentState.getNextVisiblePath arrayDoc arrayState
       selectAll true = Return None.
Proof.
  split; [reflexivity|].
  apply (extending_down_null DocumentState.getNextVisiblePath arrayDoc arrayState
           selectAll).
  right. reflexivity.
Defined.
